(** * Inim Cloud alarm control panel: a shallow embedding

    Source: [custom_components/inim_cloud/alarm_control_panel.py].

    The module is an adapter between the alarm panel entity of the host
    platform and two external collaborators, the REST client ([self._api])
    and the refresh coordinator ([self.coordinator]).  The embedding keeps
    the Python control flow: the entity is a record living in the state,
    handlers are computations in a state-and-exception monad, and every
    call to a collaborator goes through an interface whose behaviour is
    left arbitrary. *)

From Stdlib Require Import ZArith Ascii String List.
From stdpp Require Import base option list gmap strings pretty.

Local Open Scope string_scope.
Local Open Scope Z_scope.
Local Open Scope list_scope.

(** ** Python values

    The snapshots are decoded JSON.  Identifiers, names and the active
    scenario are leaves of that JSON: [None], a boolean, an integer or a
    string (floating point leaves are outside the model). *)

Inductive value : Type :=
| VNone
| VBool (b : bool)
| VInt (n : Z)
| VStr (s : string).

#[global] Instance value_eq_dec : EqDecision value.
Proof. solve_decision. Defined.

(** [a == b] on leaves.  [bool] is a subclass of [int] in Python, so
    [True == 1] holds; values of unrelated types are never equal. *)
Definition py_eq (a b : value) : bool :=
  match a, b with
  | VNone, VNone => true
  | VBool x, VBool y => bool_decide (x = y)
  | VBool x, VInt n | VInt n, VBool x => bool_decide (Z.b2z x = n)
  | VInt n, VInt m => bool_decide (n = m)
  | VStr s, VStr t => bool_decide (s = t)
  | _, _ => false
  end.

(** [x is not None]. *)
Definition is_not_None (v : value) : bool :=
  match v with VNone => false | _ => true end.

(** [str(x)]. *)
Definition py_str (v : value) : string :=
  match v with
  | VNone => "None"
  | VBool true => "True"
  | VBool false => "False"
  | VInt n => pretty n
  | VStr s => s
  end.

(** [str.lower] on the ASCII range: [A]..[Z] move to [a]..[z], every other
    byte is kept. *)
Definition lower_ascii (c : ascii) : ascii :=
  let n := nat_of_ascii c in
  if (Nat.leb 65 n && Nat.leb n 90)%bool then ascii_of_nat (n + 32) else c.

Fixpoint lower (s : string) : string :=
  match s with
  | EmptyString => EmptyString
  | String c rest => String (lower_ascii c) (lower rest)
  end.

(** ** Snapshots

    A scenario record is a dict of leaves.  A device record is a dict
    whose ["scenarios"] entry, when present, is a list of scenario
    records and whose other entries are leaves. *)

Abbreviation scenario := (gmap string value).

Record device : Type := Device {
  attrs : gmap string value;
  scenarios : option (list scenario);
}.

#[global] Instance device_eq_dec : EqDecision device.
Proof. solve_decision. Defined.

(** [d.get(k)] and [d.get(k, default)]. *)
Definition dict_get (d : gmap string value) (k : string) : value :=
  default VNone (d !! k).

Definition dict_get_default (d : gmap string value) (k : string) (dflt : value)
  : value :=
  default dflt (d !! k).

(** Truth value of a device dict: an empty dict is falsy. *)
Definition device_truthy (d : device) : bool :=
  negb (bool_decide (attrs d = ∅) && bool_decide (scenarios d = None)).

(** ** Panel states and the literal table *)

Inductive AlarmControlPanelState : Type :=
| ARMED_AWAY
| DISARMED
| ARMED_HOME.

#[global] Instance AlarmControlPanelState_eq_dec :
  EqDecision AlarmControlPanelState.
Proof. solve_decision. Defined.

Definition SCENARIO_STATE_MAP : gmap string AlarmControlPanelState :=
  <["0" := ARMED_AWAY]> (<["1" := DISARMED]> (<["2" := ARMED_HOME]> ∅)).

(** ** Exceptions, log records and calls to the collaborators *)

(** [except Exception] catches instances of [Exception] only; a
    [BaseException] outside that class (task cancellation, interpreter
    exit) passes through. *)
Record exn : Type := Exn {
  is_Exception : bool;
  exn_text : string;
}.

Inductive result (A : Type) : Type :=
| Return (a : A)
| Raise (e : exn).
Arguments Return {A} a.
Arguments Raise {A} e.

Inductive level : Type := DEBUG | INFO | WARNING | ERROR.

Inductive event : Type :=
| Log (lv : level) (fmt : string) (args : list value)
| ActivateScenario (device_id scenario_id : value)
| AsyncRefresh.

#[global] Instance level_eq_dec : EqDecision level.
Proof. solve_decision. Defined.

#[global] Instance event_eq_dec : EqDecision event.
Proof. solve_decision. Defined.

Definition is_log (ev : event) : bool :=
  match ev with Log _ _ _ => true | _ => false end.

Definition is_activate (ev : event) : bool :=
  match ev with ActivateScenario _ _ => true | _ => false end.

Definition is_refresh (ev : event) : bool :=
  match ev with AsyncRefresh => true | _ => false end.

(** The external collaborators, over a state [W] of their own.
    [activate_scenario] is the REST client's coroutine, [async_refresh]
    and [data] belong to the coordinator.  Nothing is assumed about what
    they return, raise or do to [W]. *)
Class Collaborators (W : Type) : Type := {
  activate_scenario : value → value → W → result unit * W;
  async_refresh : W → result unit * W;
  data : W → option (list device);
}.

(** ** The entity *)

Record Entity : Type := mkEntity {
  _device_id : value;
  _attr_name : value;
  _scenarios : list scenario;
  _disarm_scenario_id : value;
  _arm_away_scenario_id : value;
  _arm_home_scenario_id : value;
}.

#[global] Instance Entity_eq_dec : EqDecision Entity.
Proof. solve_decision. Defined.

(** The object before [__init__] has run. *)
Definition blank : Entity :=
  mkEntity VNone VNone [] VNone VNone VNone.

(** ** The monad of handlers

    A computation reads and updates the entity, the collaborators' state
    and the trace of observable events, and either returns or raises.
    Updates made before a [raise] stay, as in Python. *)

Record state (W : Type) : Type := mkState {
  self : Entity;
  world : W;
  trace : list event;
}.
Arguments mkState {W} _ _ _.
Arguments self {W} _.
Arguments world {W} _.
Arguments trace {W} _.

Definition M (W A : Type) : Type := state W → result A * state W.

#[global] Instance M_ret {W} : MRet (M W) := λ A a s, (Return a, s).

#[global] Instance M_bind {W} : MBind (M W) := λ A B f m s,
  match m s with
  | (Return a, s') => f a s'
  | (Raise e, s') => (Raise e, s')
  end.

Definition raise {W A} (e : exn) : M W A := λ s, (Raise e, s).

Definition get_self {W} : M W Entity := λ s, (Return (self s), s).

Definition set_self {W} (f : Entity → Entity) : M W unit := λ s,
  (Return tt, mkState (f (self s)) (world s) (trace s)).

Definition emit {W} (ev : event) : M W unit := λ s,
  (Return tt, mkState (self s) (world s) (trace s ++ [ev])).

Definition log {W} (lv : level) (fmt : string) (args : list value) : M W unit :=
  emit (Log lv fmt args).

(** [try: body except Exception as err: handler err]. *)
Definition try_except {W A} (body : M W A) (handler : exn → M W A) : M W A :=
  λ s,
    match body s with
    | (Raise e, s') =>
        if is_Exception e then handler e s' else (Raise e, s')
    | r => r
    end.

(** [for x in l: body x]. *)
Fixpoint for_each {W A} (l : list A) (body : A → M W unit) : M W unit :=
  match l with
  | [] => mret tt
  | x :: rest => body x ;; for_each rest body
  end.

(** Attribute assignments of the entity. *)
Definition with_device_id (v : value) (e : Entity) : Entity :=
  mkEntity v (_attr_name e) (_scenarios e) (_disarm_scenario_id e)
    (_arm_away_scenario_id e) (_arm_home_scenario_id e).

Definition with_attr_name (v : value) (e : Entity) : Entity :=
  mkEntity (_device_id e) v (_scenarios e) (_disarm_scenario_id e)
    (_arm_away_scenario_id e) (_arm_home_scenario_id e).

Definition with_scenarios (l : list scenario) (e : Entity) : Entity :=
  mkEntity (_device_id e) (_attr_name e) l (_disarm_scenario_id e)
    (_arm_away_scenario_id e) (_arm_home_scenario_id e).

Definition with_disarm_scenario_id (v : value) (e : Entity) : Entity :=
  mkEntity (_device_id e) (_attr_name e) (_scenarios e) v
    (_arm_away_scenario_id e) (_arm_home_scenario_id e).

Definition with_arm_away_scenario_id (v : value) (e : Entity) : Entity :=
  mkEntity (_device_id e) (_attr_name e) (_scenarios e)
    (_disarm_scenario_id e) v (_arm_home_scenario_id e).

Definition with_arm_home_scenario_id (v : value) (e : Entity) : Entity :=
  mkEntity (_device_id e) (_attr_name e) (_scenarios e)
    (_disarm_scenario_id e) (_arm_away_scenario_id e) v.

(** [d[k]]: [KeyError] when the key is missing. *)
Definition dict_item {W} (d : gmap string value) (k : string) : M W value :=
  match d !! k with
  | Some v => mret v
  | None => raise (Exn true ("KeyError: " +:+ k))
  end.

(** [x.lower()]: only [str] has the method. *)
Definition str_lower {W} (v : value) : M W string :=
  match v with
  | VStr s => mret (lower s)
  | _ => raise (Exn true "AttributeError: no attribute 'lower'")
  end.

Section Panel.
Context {W : Type} `{!Collaborators W}.

(** [await self._api.activate_scenario(device_id, scenario_id)]. *)
Definition api_activate_scenario (device_id scenario_id : value) : M W unit :=
  λ s,
    let '(r, w) := activate_scenario device_id scenario_id (world s) in
    (r, mkState (self s) w (trace s ++ [ActivateScenario device_id scenario_id])).

(** [await self.coordinator.async_refresh()]. *)
Definition coordinator_async_refresh : M W unit :=
  λ s,
    let '(r, w) := async_refresh (world s) in
    (r, mkState (self s) w (trace s ++ [AsyncRefresh])).

(** [self.coordinator.data]. *)
Definition coordinator_data : M W (option (list device)) :=
  λ s, (Return (data (world s)), s).

(** The body of the loop of [__init__] (lines 94-111). *)
Definition map_scenario (sc : scenario) : M W unit :=
  let scenario_id := dict_get sc "id" in
  scenario_name ← str_lower (dict_get_default sc "name" (VStr ""));
  if bool_decide (scenario_name ∈ ["arm"; "away"]) then
    set_self (with_arm_away_scenario_id scenario_id) ;;
    log DEBUG "Mapped '%s' to ARM_AWAY with ID %s"
      [VStr scenario_name; scenario_id]
  else if bool_decide (scenario_name ∈ ["stay"; "home"; "partial"]) then
    set_self (with_arm_home_scenario_id scenario_id) ;;
    log DEBUG "Mapped '%s' to ARM_HOME with ID %s"
      [VStr scenario_name; scenario_id]
  else if bool_decide (scenario_name ∈ ["disarm"; "off"]) then
    set_self (with_disarm_scenario_id scenario_id) ;;
    log DEBUG "Mapped '%s' to DISARM with ID %s"
      [VStr scenario_name; scenario_id]
  else mret tt.

(** [InimAlarmControlPanel.__init__] (lines 67-111).  The attributes
    no operation reads afterwards ([_api], [_entry], [_device],
    [_attr_unique_id], [_attr_device_info]) are left out. *)
Definition __init__ (dev : device) : M W unit :=
  device_id ← dict_item (attrs dev) "id";
  set_self (with_device_id device_id) ;;
  name ← dict_item (attrs dev) "name";
  set_self (with_attr_name name) ;;
  set_self (with_scenarios (default [] (scenarios dev))) ;;
  set_self (with_disarm_scenario_id VNone) ;;
  set_self (with_arm_away_scenario_id VNone) ;;
  set_self (with_arm_home_scenario_id VNone) ;;
  this ← get_self;
  for_each (_scenarios this) map_scenario.

(** [_find_device_in_coordinator] (lines 113-121). *)
Fixpoint find_device (device_id : value) (l : list device) : option device :=
  match l with
  | [] => None
  | d :: rest =>
      if py_eq (dict_get (attrs d) "id") device_id then Some d
      else find_device device_id rest
  end.

Definition _find_device_in_coordinator : M W (option device) :=
  this ← get_self;
  cdata ← coordinator_data;
  match cdata with
  | None | Some [] => mret None
  | Some l => mret (find_device (_device_id this) l)
  end.

(** [alarm_state] (lines 128-159). *)
Definition alarm_state : M W (option AlarmControlPanelState) :=
  this ← get_self;
  found ← _find_device_in_coordinator;
  match found with
  | Some d =>
      if device_truthy d then
        let active_scenario := dict_get (attrs d) "active_scenario" in
        log DEBUG "Device %s active scenario ID: %s"
          [_attr_name this; active_scenario] ;;
        let scenario_str :=
          if is_not_None active_scenario then Some (py_str active_scenario)
          else None in
        let st := scenario_str ≫= (λ k, SCENARIO_STATE_MAP !! k) in
        match st with
        | None =>
            log WARNING
              "No state mapping found for scenario ID: %s, defaulting to DISARMED"
              [active_scenario] ;;
            mret (Some DISARMED)
        | Some a =>
            log DEBUG "Device %s scenario ID %s mapped to state: '%s'"
              [_attr_name this; active_scenario] ;;
            mret (Some a)
        end
      else
        log WARNING "Device %s not found in coordinator data"
          [_device_id this] ;;
        mret None
  | None =>
      log WARNING "Device %s not found in coordinator data" [_device_id this] ;;
      mret None
  end.

(** [async_alarm_disarm] (lines 161-182). *)
Definition async_alarm_disarm : M W unit :=
  this ← get_self;
  log DEBUG "Disarming system for device %s" [_device_id this] ;;
  if is_not_None (_disarm_scenario_id this) then
    try_except
      (log DEBUG "Sending disarm command to API" [] ;;
       api_activate_scenario (_device_id this) (_disarm_scenario_id this) ;;
       coordinator_async_refresh)
      (λ err,
         log ERROR "Error disarming system: %s" [VStr (exn_text err)] ;;
         coordinator_async_refresh)
  else
    log ERROR "Cannot disarm - no disarm scenario ID found for device %s"
      [_device_id this].

(** [async_alarm_arm_home] (lines 184-205). *)
Definition async_alarm_arm_home : M W unit :=
  this ← get_self;
  log DEBUG "Arming system (home) for device %s" [_device_id this] ;;
  if is_not_None (_arm_home_scenario_id this) then
    try_except
      (log DEBUG "Sending arm home command to API" [] ;;
       api_activate_scenario (_device_id this) (_arm_home_scenario_id this) ;;
       coordinator_async_refresh)
      (λ err,
         log ERROR "Error arming system (home): %s" [VStr (exn_text err)] ;;
         coordinator_async_refresh)
  else
    log ERROR "Cannot arm home - no arm home scenario ID found for device %s"
      [_device_id this].

(** [async_alarm_arm_away] (lines 207-228). *)
Definition async_alarm_arm_away : M W unit :=
  this ← get_self;
  log DEBUG "Arming system (away) for device %s" [_device_id this] ;;
  if is_not_None (_arm_away_scenario_id this) then
    try_except
      (log DEBUG "Sending arm away command to API" [] ;;
       api_activate_scenario (_device_id this) (_arm_away_scenario_id this) ;;
       coordinator_async_refresh)
      (λ err,
         log ERROR "Error arming system (away): %s" [VStr (exn_text err)] ;;
         coordinator_async_refresh)
  else
    log ERROR "Cannot arm away - no arm away scenario ID found for device %s"
      [_device_id this].

End Panel.

(** ** Roles, commands and runs *)

Inductive Role : Type := RDisarm | RArmHome | RArmAway.

#[global] Instance Role_eq_dec : EqDecision Role.
Proof. solve_decision. Defined.

Definition role_id (r : Role) (e : Entity) : value :=
  match r with
  | RDisarm => _disarm_scenario_id e
  | RArmHome => _arm_home_scenario_id e
  | RArmAway => _arm_away_scenario_id e
  end.

(** The command handler of a role. *)
Definition command `{!Collaborators W} (r : Role) : M W unit :=
  match r with
  | RDisarm => async_alarm_disarm
  | RArmHome => async_alarm_arm_home
  | RArmAway => async_alarm_arm_away
  end.

(** The vocabulary the loop of [__init__] tests a lower-cased name against
    for each role. *)
Definition vocabulary (r : Role) : list string :=
  match r with
  | RArmAway => ["arm"; "away"]
  | RArmHome => ["stay"; "home"; "partial"]
  | RDisarm => ["disarm"; "off"]
  end.

(** Counting the events of a kind in a trace. *)
Definition count (p : event → bool) (t : list event) : nat :=
  length (filter (λ ev, p ev = true) t).

(** The outcome of the activation call a command issues from a state, and
    of the refresh that follows it. *)
Definition activation `{!Collaborators W} (r : Role) (s : state W)
  : result unit * W :=
  activate_scenario (_device_id (self s)) (role_id r (self s)) (world s).

Definition following_refresh `{!Collaborators W} (r : Role) (s : state W)
  : result unit * W :=
  async_refresh (snd (activation r s)).

(** What the host does with an entity: it reads the state or issues a
    command, and goes on whether or not the call raised. *)
Inductive operation : Type :=
| StateRead
| Command (r : Role).

Definition perform `{!Collaborators W} (o : operation) : M W unit :=
  match o with
  | StateRead => alarm_state ;; mret tt
  | Command r => command r
  end.

Fixpoint perform_all `{!Collaborators W} (ops : list operation) (s : state W)
  : state W :=
  match ops with
  | [] => s
  | o :: rest => perform_all rest (snd (perform o s))
  end.

(** The lower-cased name the loop of [__init__] classifies: [None] when
    [.lower()] raises (the name is present and not a string). *)
Definition lowered_name (sc : scenario) : option string :=
  match dict_get_default sc "name" (VStr "") with
  | VStr n => Some (lower n)
  | _ => None
  end.

(** A scenario matches a role when its lower-cased name is a member of the
    role's vocabulary. *)
Definition matches (r : Role) (sc : scenario) : Prop :=
  ∃ n, lowered_name sc = Some n ∧ n ∈ vocabulary r.

(** The attribute assignment one iteration of the loop of [__init__]
    makes, for a lower-cased name [n] and an id [v]. *)
Definition assign (n : string) (v : value) (e : Entity) : Entity :=
  if bool_decide (n ∈ ["arm"; "away"]) then with_arm_away_scenario_id v e
  else if bool_decide (n ∈ ["stay"; "home"; "partial"]) then
    with_arm_home_scenario_id v e
  else if bool_decide (n ∈ ["disarm"; "off"]) then with_disarm_scenario_id v e
  else e.

Definition assign_scenario (e : Entity) (sc : scenario) : Entity :=
  match lowered_name sc with
  | Some n => assign n (dict_get sc "id") e
  | None => e
  end.

(** ** An unreachable cloud

    A second concrete instance: every activation fails with a client
    error, the coordinator's refresh returns and there is no snapshot.
    The state counts the calls. *)
Module Unreachable.

#[global] Instance collaborators : Collaborators nat := {|
  activate_scenario := λ _ _ n, (Raise (Exn true "ClientError: unreachable"), S n);
  async_refresh := λ n, (Return tt, S n);
  data := λ _, None;
|}.

End Unreachable.

(** [matches] as a test. *)
Definition matchesb (r : Role) (sc : scenario) : bool :=
  match lowered_name sc with
  | Some n => bool_decide (n ∈ vocabulary r)
  | None => false
  end.

(** ** Scripted collaborators

    A concrete instance for running the handlers: the REST client and the
    coordinator play their outcomes from a script, one per call, and
    return normally once the script is over.  A refresh also installs the
    snapshot the script gives. *)
Module Scripted.

Record World : Type := mkWorld {
  api_script : list (result unit);
  refresh_script : list (result unit * option (list device));
  snapshot : option (list device);
}.

#[global] Instance collaborators : Collaborators World := {|
  activate_scenario := λ _ _ w,
    match api_script w with
    | [] => (Return tt, w)
    | r :: rest => (r, mkWorld rest (refresh_script w) (snapshot w))
    end;
  async_refresh := λ w,
    match refresh_script w with
    | [] => (Return tt, w)
    | (r, snap) :: rest => (r, mkWorld (api_script w) rest snap)
    end;
  data := snapshot;
|}.

Definition sc (name : string) (id : value) : scenario :=
  <["name" := VStr name]> (<["id" := id]> ∅).

(** A scenario record without an ["id"] entry. *)
Definition sc_no_id (name : string) : scenario :=
  <["name" := VStr name]> ∅.

Definition dev (id : value) (active : value) (l : list scenario) : device :=
  Device
    (<["id" := id]> (<["name" := VStr "Home"]>
      (<["active_scenario" := active]> ∅)))
    (Some l).

Definition boom : exn := Exn true "ClientError: boom".
Definition down : exn := Exn true "UpdateFailed: down".
Definition cancelled : exn := Exn false "CancelledError".

(** A panel whose scenario list names the arm-away role twice and
    holds a name outside the vocabularies. *)
Definition panel_scenarios : list scenario :=
  [sc "Away" (VStr "0"); sc "Off" (VStr "1"); sc "Partial" (VStr "2");
   sc "ARM" (VStr "9"); sc "armed" (VStr "5")].

Definition panel : device := dev (VInt 7) (VInt 2) panel_scenarios.

(** A panel whose last disarm scenario carries no id. *)
Definition panel_null_disarm : device :=
  dev (VInt 7) (VInt 1) [sc "disarm" (VStr "1"); sc_no_id "Off"].

(** A panel none of whose scenarios names a role. *)
Definition panel_unmapped : device :=
  dev (VInt 7) (VInt 1) [sc "night" (VStr "3")].

Definition quiet : World := mkWorld [] [] None.

(** The entity built from a device, on a quiet world. *)
Definition built (d : device) (w : World) : state World :=
  let s := snd (__init__ d (mkState blank w [])) in
  mkState (self s) (world s) [].

(** The entity of [panel] reading a snapshot in which its device, listed
    second, reports [active] as the active scenario. *)
Definition reading (active : value) : state World :=
  built panel
    (mkWorld [] [] (Some [dev (VInt 8) (VInt 0) []; dev (VInt 7) active []])).

(** The same entity reading a snapshot its device is not in. *)
Definition reading_others : state World :=
  built panel (mkWorld [] [] (Some [dev (VInt 8) (VInt 0) []])).

(** A later snapshot in which the device's scenario list has changed. *)
Definition renamed : option (list device) :=
  Some [dev (VInt 7) (VInt 0)
          [sc "away" (VStr "40"); sc "off" (VStr "41"); sc "home" (VStr "42")]].

End Scripted.

(** ** Platform setup

    [async_setup_entry] (lines 33-53), from the point where the lookups
    into the host's store have produced the coordinator and the REST
    client.  The host's [async_add_entities] callback is recorded: [added]
    holds the argument of each call, in order. *)

Record setup_state (W : Type) : Type := mkSetup {
  setup_world : W;
  setup_trace : list event;
  added : list (list Entity);
}.
Arguments mkSetup {W} _ _ _.
Arguments setup_world {W} _.
Arguments setup_trace {W} _.
Arguments added {W} _.

(** [InimAlarmControlPanel(coordinator, api, entry, device)]: [__init__]
    runs on a fresh object; an exception of [__init__] is the
    constructor's. *)
Definition construct `{!Collaborators W} (dev : device) (w : W)
    (t : list event) : result Entity * (W * list event) :=
  let '(r, s) := __init__ dev (mkState blank w t) in
  (match r with
   | Return _ => Return (self s)
   | Raise e => Raise e
   end, (world s, trace s)).

(** The loop of lines 47-49: [entities] is the list built so far. *)
Fixpoint setup_loop `{!Collaborators W} (devices : list device)
    (entities : list Entity) (w : W) (t : list event)
  : result (list Entity) * (W * list event) :=
  match devices with
  | [] => (Return entities, (w, t))
  | dev :: rest =>
      let t1 := t ++ [Log INFO "Adding alarm control panel for device: %s"
                        [dict_get (attrs dev) "name"]] in
      match construct dev w t1 with
      | (Return e, (w2, t2)) => setup_loop rest (entities ++ [e]) w2 t2
      | (Raise x, wt) => (Raise x, wt)
      end
  end.

Definition async_setup_entry `{!Collaborators W} (st : setup_state W)
  : result unit * setup_state W :=
  let devices :=
    match data (setup_world st) with
    | None | Some [] => []
    | Some l => l
    end in
  match setup_loop devices [] (setup_world st) (setup_trace st) with
  | (Return entities, (w, t)) =>
      match entities with
      | [] => (Return tt, mkSetup w t (added st))
      | _ :: _ =>
          (Return tt,
           mkSetup w
             (t ++ [Log INFO "Adding %d alarm control panel entities"
                      [VInt (Z.of_nat (length entities))]])
             (added st ++ [entities]))
      end
  | (Raise x, (w, t)) => (Raise x, mkSetup w t (added st))
  end.

(** A device [__init__] accepts: it carries an id and a name, and every
    scenario name is a string or missing. *)
Definition well_formed (dev : device) : Prop :=
  is_Some (attrs dev !! "id") ∧ is_Some (attrs dev !! "name")
  ∧ Forall (λ sc, is_Some (lowered_name sc)) (default [] (scenarios dev)).

(** A scenario whose lower-cased name is in one of the vocabularies. *)
Definition recognisedb (sc : scenario) : bool :=
  matchesb RArmAway sc || matchesb RArmHome sc || matchesb RDisarm sc.

(** * Properties *)

(** ** Lower-casing and the vocabularies *)

Lemma lower_idempotent (s : string) : lower (lower s) = lower s.
Proof.
  induction s as [|c s IH]; simpl; [reflexivity|].
  f_equal; [|exact IH].
  destruct c as [[] [] [] [] [] [] [] []]; reflexivity.
Qed.

Example lower_Arm : lower "Arm" = "arm" ∧ lower "AWAY" = "away"
  ∧ lower "Partial" = "partial" ∧ lower "dIsArM" = "disarm".
Proof. repeat split. Qed.

(** The three vocabularies are pairwise disjoint, so the order of the
    [if]/[elif] chain does not matter. *)
Lemma vocabulary_disjoint (r r' : Role) (n : string) :
  n ∈ vocabulary r → n ∈ vocabulary r' → r = r'.
Proof.
  intros Hr Hr'.
  destruct r, r'; try reflexivity; simpl in Hr, Hr';
    repeat match goal with
    | H : _ ∈ _ :: _ |- _ => apply elem_of_cons in H; destruct H as [H|H]
    | H : _ ∈ [] |- _ => apply elem_of_nil in H; destruct H
    end; subst; discriminate.
Qed.

Lemma role_id_assign_in (r : Role) (n : string) (v : value) (e : Entity) :
  n ∈ vocabulary r → role_id r (assign n v e) = v.
Proof.
  intros Hn. unfold assign.
  destruct r; simpl in Hn; repeat case_bool_decide; try reflexivity;
    try contradiction;
    match goal with
    | H1 : n ∈ ?l1, H2 : n ∈ ?l2 |- _ =>
        first
          [ discriminate (vocabulary_disjoint RDisarm RArmAway n H1 H2)
          | discriminate (vocabulary_disjoint RDisarm RArmAway n H2 H1)
          | discriminate (vocabulary_disjoint RDisarm RArmHome n H1 H2)
          | discriminate (vocabulary_disjoint RDisarm RArmHome n H2 H1)
          | discriminate (vocabulary_disjoint RArmHome RArmAway n H1 H2)
          | discriminate (vocabulary_disjoint RArmHome RArmAway n H2 H1) ]
    end.
Qed.

Lemma role_id_assign_out (r : Role) (n : string) (v : value) (e : Entity) :
  n ∉ vocabulary r → role_id r (assign n v e) = role_id r e.
Proof.
  intros Hn. unfold assign.
  destruct r; simpl in Hn; repeat case_bool_decide; try reflexivity;
    contradiction.
Qed.

(** ** The role mapping as a fold over the scenario list *)

Lemma matches_dec (r : Role) (sc : scenario) : matches r sc ∨ ¬ matches r sc.
Proof.
  unfold matches. destruct (lowered_name sc) as [n|].
  - destruct (decide (n ∈ vocabulary r)) as [Hin|Hout].
    + left. exists n. split; [reflexivity | exact Hin].
    + right. intros (m & Hm & Hin). injection Hm as <-. contradiction.
  - right. intros (m & Hm & _). discriminate.
Qed.

Lemma role_id_assign_scenario_match (r : Role) (sc : scenario) (e : Entity) :
  matches r sc → role_id r (assign_scenario e sc) = dict_get sc "id".
Proof.
  intros (n & Hn & Hin). unfold assign_scenario. rewrite Hn.
  apply role_id_assign_in, Hin.
Qed.

Lemma role_id_assign_scenario_other (r : Role) (sc : scenario) (e : Entity) :
  ¬ matches r sc → role_id r (assign_scenario e sc) = role_id r e.
Proof.
  intros Hno. unfold assign_scenario.
  destruct (lowered_name sc) as [n|] eqn:Hn; [|reflexivity].
  apply role_id_assign_out. intros Hin. apply Hno. exists n. auto.
Qed.

Lemma role_id_fold_other (r : Role) (l : list scenario) (e : Entity) :
  Forall (λ sc, ¬ matches r sc) l →
  role_id r (fold_left assign_scenario l e) = role_id r e.
Proof.
  intros Hl. revert e. induction Hl as [|sc l Hsc _ IH]; intros e; simpl.
  - reflexivity.
  - rewrite IH. apply role_id_assign_scenario_other, Hsc.
Qed.

Lemma role_id_fold_last (r : Role) (l1 l2 : list scenario) (sc : scenario)
    (e : Entity) :
  matches r sc →
  Forall (λ x, ¬ matches r x) l2 →
  role_id r (fold_left assign_scenario (l1 ++ sc :: l2) e) = dict_get sc "id".
Proof.
  intros Hsc Hl2. rewrite fold_left_app. simpl.
  rewrite role_id_fold_other by exact Hl2.
  apply role_id_assign_scenario_match, Hsc.
Qed.

(** A role keeps its initial id or holds the id of a matching scenario. *)
Lemma role_id_fold_origin (r : Role) (l : list scenario) (e : Entity) :
  (Forall (λ sc, ¬ matches r sc) l
   ∧ role_id r (fold_left assign_scenario l e) = role_id r e)
  ∨ (∃ l1 sc l2, l = l1 ++ sc :: l2 ∧ matches r sc
       ∧ Forall (λ x, ¬ matches r x) l2
       ∧ role_id r (fold_left assign_scenario l e) = dict_get sc "id").
Proof.
  induction l as [|sc l IH] using rev_ind.
  - left. split; [constructor | reflexivity].
  - destruct (matches_dec r sc) as [Hsc|Hsc].
    + right. exists l, sc, []. repeat split; try assumption; [constructor|].
      apply role_id_fold_last; [assumption | constructor].
    + destruct IH as [[Hall Heq] | (l1 & sc' & l2 & -> & Hm & Hl2 & Heq)].
      * left. split.
        -- apply Forall_app. split; [assumption | repeat constructor; assumption].
        -- rewrite fold_left_app. simpl.
           rewrite role_id_assign_scenario_other by assumption. exact Heq.
      * right. exists l1, sc', (l2 ++ [sc]).
        assert (Hl2' : Forall (λ x, ¬ matches r x) (l2 ++ [sc])).
        { apply Forall_app. split; [assumption | repeat constructor; assumption]. }
        repeat split; try assumption.
        -- rewrite <- app_assoc. reflexivity.
        -- rewrite <- app_assoc. simpl.
           apply role_id_fold_last; assumption.
Qed.

(** ** Running [__init__] *)

Lemma map_scenario_run {W} `{!Collaborators W} (sc : scenario) (s : state W) :
  is_Some (lowered_name sc) →
  ∃ t, map_scenario sc s
       = (Return tt,
          mkState (assign_scenario (self s) sc) (world s) (trace s ++ t))
       ∧ Forall (λ ev, is_log ev = true) t.
Proof.
  intros [n Hn]. unfold assign_scenario. rewrite Hn.
  unfold lowered_name in Hn. unfold map_scenario.
  destruct (dict_get_default sc "name" (VStr "")) as [| |?|nm]; try discriminate.
  injection Hn as Hn. simpl. unfold mbind, M_bind, mret, M_ret. simpl.
  rewrite Hn. unfold assign.
  repeat case_bool_decide; simpl;
    try (eexists; split; [reflexivity | repeat constructor]).
  exists []. rewrite app_nil_r. destruct s. split; [reflexivity | constructor].
Qed.

Lemma map_scenario_raise {W} `{!Collaborators W} (sc : scenario) (s : state W) :
  lowered_name sc = None → ∃ e, map_scenario sc s = (Raise e, s).
Proof.
  unfold lowered_name, map_scenario. intros Hn.
  destruct (dict_get_default sc "name" (VStr "")) as [| | |nm]; try discriminate;
    eexists; reflexivity.
Qed.

Lemma for_each_map_scenario {W} `{!Collaborators W} (l : list scenario)
    (s : state W) :
  Forall (λ sc, is_Some (lowered_name sc)) l →
  ∃ t, for_each l map_scenario s
       = (Return tt,
          mkState (fold_left assign_scenario l (self s)) (world s)
            (trace s ++ t))
       ∧ Forall (λ ev, is_log ev = true) t.
Proof.
  intros Hl. revert s. induction Hl as [|sc l Hsc _ IH]; intros s.
  - exists []. rewrite app_nil_r. destruct s. split; [reflexivity | constructor].
  - destruct (map_scenario_run sc s Hsc) as (t1 & Hrun & Ht1).
    destruct (IH (mkState (assign_scenario (self s) sc) (world s) (trace s ++ t1)))
      as (t2 & Hrest & Ht2).
    exists (t1 ++ t2). split.
    + simpl. unfold mbind, M_bind. rewrite Hrun. rewrite Hrest. simpl.
      rewrite app_assoc. reflexivity.
    + apply Forall_app. split; assumption.
Qed.

Lemma for_each_map_scenario_inv {W} `{!Collaborators W} (l : list scenario)
    (s : state W) :
  fst (for_each l map_scenario s) = Return tt →
  Forall (λ sc, is_Some (lowered_name sc)) l.
Proof.
  revert s. induction l as [|sc l IH]; intros s Hret; [constructor|].
  destruct (lowered_name sc) as [n|] eqn:Hn.
  - assert (Hsc : is_Some (lowered_name sc)) by (rewrite Hn; eexists; reflexivity).
    constructor; [exact Hsc|].
    destruct (map_scenario_run sc s Hsc) as (t1 & Hrun & _).
    simpl in Hret. unfold mbind, M_bind in Hret. rewrite Hrun in Hret.
    eapply IH. exact Hret.
  - destruct (map_scenario_raise sc s Hn) as (e & Hrun).
    simpl in Hret. unfold mbind, M_bind in Hret. rewrite Hrun in Hret.
    discriminate.
Qed.

Lemma init_run {W} `{!Collaborators W} (dev : device) (s : state W)
    (id name : value) :
  attrs dev !! "id" = Some id →
  attrs dev !! "name" = Some name →
  Forall (λ sc, is_Some (lowered_name sc)) (default [] (scenarios dev)) →
  ∃ t, __init__ dev s
       = (Return tt,
          mkState
            (fold_left assign_scenario (default [] (scenarios dev))
               (mkEntity id name (default [] (scenarios dev)) VNone VNone VNone))
            (world s) (trace s ++ t))
       ∧ Forall (λ ev, is_log ev = true) t.
Proof.
  intros Hid Hname Hl.
  set (l := default [] (scenarios dev)) in *.
  destruct (for_each_map_scenario l
              (mkState (mkEntity id name l VNone VNone VNone) (world s) (trace s)) Hl)
    as (t & Hrun & Ht).
  exists t. split; [|exact Ht].
  unfold __init__, dict_item. rewrite Hid, Hname.
  unfold mbind, M_bind, mret, M_ret, set_self, get_self. simpl.
  fold l. simpl in Hrun. exact Hrun.
Qed.

Lemma init_inv {W} `{!Collaborators W} (dev : device) (s : state W) :
  fst (__init__ dev s) = Return tt →
  is_Some (attrs dev !! "id") ∧ is_Some (attrs dev !! "name")
  ∧ Forall (λ sc, is_Some (lowered_name sc)) (default [] (scenarios dev)).
Proof.
  unfold __init__, dict_item.
  destruct (attrs dev !! "id") as [id|] eqn:Hid; [|discriminate].
  destruct (attrs dev !! "name") as [name|] eqn:Hname; [|discriminate].
  unfold mbind, M_bind, mret, M_ret, set_self, get_self. simpl.
  intros Hret. repeat split; try (eexists; reflexivity).
  eapply for_each_map_scenario_inv. exact Hret.
Qed.

(** [__init__] returns exactly on the devices that carry an id and a name
    and whose scenario names are strings (or missing). *)
Lemma init_returns_iff {W} `{!Collaborators W} (dev : device) (s : state W) :
  fst (__init__ dev s) = Return tt
  ↔ is_Some (attrs dev !! "id") ∧ is_Some (attrs dev !! "name")
    ∧ Forall (λ sc, is_Some (lowered_name sc)) (default [] (scenarios dev)).
Proof.
  split; [apply init_inv|].
  intros ([id Hid] & [name Hname] & Hl).
  destruct (init_run dev s id name Hid Hname Hl) as (t & -> & _). reflexivity.
Qed.

(** The entity [__init__] leaves behind, when it returns. *)
Lemma init_self {W} `{!Collaborators W} (dev : device) (s : state W) :
  fst (__init__ dev s) = Return tt →
  ∃ id name,
    self (snd (__init__ dev s))
    = fold_left assign_scenario (default [] (scenarios dev))
        (mkEntity id name (default [] (scenarios dev)) VNone VNone VNone)
    ∧ world (snd (__init__ dev s)) = world s.
Proof.
  intros Hret. destruct (init_inv dev s Hret) as ([id Hid] & [name Hname] & Hl).
  destruct (init_run dev s id name Hid Hname Hl) as (t & -> & _).
  exists id, name. split; reflexivity.
Qed.

(** ** Running a command *)

Lemma command_unresolved {W} `{!Collaborators W} (r : Role) (s : state W) :
  role_id r (self s) = VNone →
  ∃ m1 m2,
    command r s
    = (Return tt,
       mkState (self s) (world s)
         (trace s ++ [Log DEBUG m1 [_device_id (self s)];
                      Log ERROR m2 [_device_id (self s)]])).
Proof.
  intros Hnone.
  destruct r; simpl in Hnone; do 2 eexists;
    unfold command, async_alarm_disarm, async_alarm_arm_home,
      async_alarm_arm_away, mbind, M_bind, get_self, log, emit; simpl;
    rewrite Hnone; simpl; rewrite <- app_assoc; reflexivity.
Qed.

Lemma command_resolved {W} `{!Collaborators W} (r : Role) (s : state W) :
  role_id r (self s) ≠ VNone →
  ∃ m1 m2 m3,
    let dev := _device_id (self s) in
    let pre := trace s ++ [Log DEBUG m1 [dev]; Log DEBUG m2 [];
                           ActivateScenario dev (role_id r (self s))] in
    command r s
    = match activation r s with
      | (Return _, w1) =>
          match async_refresh w1 with
          | (Return u, w2) =>
              (Return u, mkState (self s) w2 (pre ++ [AsyncRefresh]))
          | (Raise e, w2) =>
              if is_Exception e then
                (fst (async_refresh w2),
                 mkState (self s) (snd (async_refresh w2))
                   (pre ++ [AsyncRefresh; Log ERROR m3 [VStr (exn_text e)];
                            AsyncRefresh]))
              else (Raise e, mkState (self s) w2 (pre ++ [AsyncRefresh]))
          end
      | (Raise e, w1) =>
          if is_Exception e then
            (fst (async_refresh w1),
             mkState (self s) (snd (async_refresh w1))
               (pre ++ [Log ERROR m3 [VStr (exn_text e)]; AsyncRefresh]))
          else (Raise e, mkState (self s) w1 pre)
      end.
Proof.
  intros Hsome.
  assert (Hnn : is_not_None (role_id r (self s)) = true).
  { destruct (role_id r (self s)); [contradiction | reflexivity..]. }
  destruct r; simpl in Hnn; do 3 eexists;
    unfold command, activation, async_alarm_disarm, async_alarm_arm_home,
      async_alarm_arm_away, try_except, api_activate_scenario,
      coordinator_async_refresh, mbind, M_bind, get_self, log, emit; simpl;
    rewrite Hnn; simpl;
    (destruct (activate_scenario _ _ (world s)) as [[[]|e] w1]; simpl;
     [ destruct (async_refresh w1) as [[[]|e] w2]; simpl;
       [ | destruct (is_Exception e); simpl;
           [ destruct (async_refresh w2) as [r3 w3]; simpl | ] ]
     | destruct (is_Exception e); simpl;
       [ destruct (async_refresh w1) as [r2 w2]; simpl | ] ]);
    rewrite <- ?app_assoc; simpl; reflexivity.
Qed.

Lemma matches_spec (r : Role) (sc : scenario) :
  matches r sc ↔ matchesb r sc = true.
Proof.
  unfold matches, matchesb. destruct (lowered_name sc) as [n|].
  - rewrite bool_decide_eq_true. split.
    + intros (m & Hm & Hin). injection Hm as <-. exact Hin.
    + intros Hin. exists n. auto.
  - split; [intros (m & Hm & _) | intros Hm]; discriminate.
Qed.

Lemma not_matches_spec (r : Role) (sc : scenario) :
  ¬ matches r sc ↔ matchesb r sc = false.
Proof.
  rewrite matches_spec. destruct (matchesb r sc); split; intros H;
    try reflexivity; try discriminate.
  - exfalso. apply H. reflexivity.
Qed.

(** ** Claims about the role mapping *)

(** C7.  When construction completes, each role is populated exactly from
    the scenarios whose lower-cased name is a member of the role's
    vocabulary (["arm"], ["away"] for arm-away; ["stay"], ["home"],
    ["partial"] for arm-home; ["disarm"], ["off"] for disarm): if some
    scenario matches the role, the role holds the id of a matching
    scenario; a role that holds an id got it from a matching scenario; and
    a role no scenario matches stays [None], so names outside the
    vocabularies populate nothing. *)
Theorem role_mapping_by_vocabulary {W} `{!Collaborators W}
    (dev : device) (s : state W) (r : Role) :
  fst (__init__ dev s) = Return tt →
  let l := default [] (scenarios dev) in
  let e := self (snd (__init__ dev s)) in
  ((∃ sc, sc ∈ l ∧ matches r sc) →
     ∃ sc, sc ∈ l ∧ matches r sc ∧ role_id r e = dict_get sc "id")
  ∧ (role_id r e ≠ VNone →
       ∃ sc, sc ∈ l ∧ matches r sc ∧ role_id r e = dict_get sc "id")
  ∧ ((∀ sc, sc ∈ l → ¬ matches r sc) → role_id r e = VNone).
Proof.
  intros Hret l e.
  destruct (init_self dev s Hret) as (id & name & Hself & _).
  fold l in Hself. fold e in Hself.
  destruct (role_id_fold_origin r l (mkEntity id name l VNone VNone VNone))
    as [[Hall Heq] | (l1 & sc & l2 & Hl & Hm & Hl2 & Heq)];
    rewrite <- Hself in Heq.
  - assert (Hnone : role_id r e = VNone) by (rewrite Heq; destruct r; reflexivity).
    repeat split.
    + intros (sc & Hin & Hm). exfalso.
      rewrite Forall_forall in Hall. exact (Hall sc Hin Hm).
    + intros Hne. contradiction.
    + intros _. exact Hnone.
  - assert (Hin : sc ∈ l).
    { rewrite Hl. apply elem_of_app. right. apply elem_of_cons. left. reflexivity. }
    repeat split.
    + intros _. exists sc. auto.
    + intros _. exists sc. auto.
    + intros Hno. exfalso. exact (Hno sc Hin Hm).
Qed.

Lemma role_mapping_by_vocabulary_witness :
  fst (__init__ Scripted.panel (mkState blank Scripted.quiet [])) = Return tt
  ∧ (∃ sc, sc ∈ Scripted.panel_scenarios ∧ matches RArmHome sc
           ∧ role_id RArmHome
               (self (snd (__init__ Scripted.panel
                             (mkState blank Scripted.quiet []))))
             = dict_get sc "id").
Proof.
  split; [reflexivity|].
  assert (Hret : fst (__init__ Scripted.panel (mkState blank Scripted.quiet []))
                 = Return tt) by reflexivity.
  destruct (role_mapping_by_vocabulary Scripted.panel
              (mkState blank Scripted.quiet []) RArmHome Hret) as (Hin & _).
  apply Hin.
  exists (Scripted.sc "Partial" (VStr "2")). split.
  - do 2 apply list_elem_of_further. apply list_elem_of_here.
  - apply matches_spec. reflexivity.
Defined.

(** C8.  When several scenarios match one role, the role holds the id of
    the last of them in list order: every later match overwrites. *)
Theorem last_matching_scenario_wins {W} `{!Collaborators W}
    (dev : device) (s : state W) (r : Role)
    (l1 l2 : list scenario) (sc : scenario) :
  fst (__init__ dev s) = Return tt →
  default [] (scenarios dev) = l1 ++ sc :: l2 →
  matches r sc →
  Forall (λ x, ¬ matches r x) l2 →
  role_id r (self (snd (__init__ dev s))) = dict_get sc "id".
Proof.
  intros Hret Hl Hm Hl2.
  destruct (init_self dev s Hret) as (id & name & -> & _).
  rewrite Hl. apply role_id_fold_last; assumption.
Qed.

Lemma last_matching_scenario_wins_witness :
  role_id RArmAway
    (self (snd (__init__ Scripted.panel (mkState blank Scripted.quiet []))))
  = VStr "9".
Proof.
  apply (last_matching_scenario_wins Scripted.panel
           (mkState blank Scripted.quiet []) RArmAway
           [Scripted.sc "Away" (VStr "0"); Scripted.sc "Off" (VStr "1");
            Scripted.sc "Partial" (VStr "2")]
           [Scripted.sc "armed" (VStr "5")]
           (Scripted.sc "ARM" (VStr "9"))).
  - reflexivity.
  - reflexivity.
  - apply matches_spec. reflexivity.
  - repeat constructor. apply not_matches_spec. reflexivity.
Defined.

(** ** Claims about the command handlers *)

(** C4.  A command whose role holds no scenario id returns normally and
    touches neither the collaborators nor the entity: no
    [activate_scenario] call and no refresh are issued, and the trace
    grows by the handler's debug line and one error line only. *)
Theorem unresolved_command_only_logs {W} `{!Collaborators W}
    (r : Role) (s : state W) :
  role_id r (self s) = VNone →
  fst (command r s) = Return tt
  ∧ self (snd (command r s)) = self s
  ∧ world (snd (command r s)) = world s
  ∧ ∃ m1 m2 a1 a2,
      trace (snd (command r s)) = trace s ++ [Log DEBUG m1 a1; Log ERROR m2 a2].
Proof.
  intros Hnone.
  destruct (command_unresolved r s Hnone) as (m1 & m2 & ->). simpl.
  repeat split. eauto.
Qed.

Lemma unresolved_command_only_logs_witness :
  let s := Scripted.built Scripted.panel_unmapped
             (Scripted.mkWorld [Raise Scripted.boom] [] None) in
  role_id RArmAway (self s) = VNone
  ∧ fst (command RArmAway s) = Return tt
  ∧ self (snd (command RArmAway s)) = self s
  ∧ world (snd (command RArmAway s)) = world s
  ∧ ∃ m1 m2 a1 a2,
      trace (snd (command RArmAway s))
      = trace s ++ [Log DEBUG m1 a1; Log ERROR m2 a2].
Proof.
  intros s. split; [reflexivity|].
  apply (unresolved_command_only_logs RArmAway s). reflexivity.
Defined.

(** C10.  When the last scenario that matches a role has no id (the entry
    is missing or [None]), the role holds [None] after construction,
    whatever the earlier matches carried, and the role's command is a
    no-op: it returns, leaves the collaborators untouched and adds log
    lines only. *)
Theorem null_id_last_match_disables_command {W} `{!Collaborators W}
    (dev : device) (s : state W) (r : Role)
    (l1 l2 : list scenario) (sc : scenario) :
  fst (__init__ dev s) = Return tt →
  default [] (scenarios dev) = l1 ++ sc :: l2 →
  matches r sc →
  Forall (λ x, ¬ matches r x) l2 →
  dict_get sc "id" = VNone →
  role_id r (self (snd (__init__ dev s))) = VNone
  ∧ ∀ s' : state W,
      self s' = self (snd (__init__ dev s)) →
      fst (command r s') = Return tt
      ∧ world (snd (command r s')) = world s'
      ∧ ∃ t, trace (snd (command r s')) = trace s' ++ t
             ∧ Forall (λ ev, is_log ev = true) t.
Proof.
  intros Hret Hl Hm Hl2 Hid.
  assert (Hnone : role_id r (self (snd (__init__ dev s))) = VNone).
  { destruct (init_self dev s Hret) as (id & name & -> & _).
    rewrite Hl, <- Hid. apply role_id_fold_last; assumption. }
  split; [exact Hnone|].
  intros s' Hself. rewrite <- Hself in Hnone.
  destruct (command_unresolved r s' Hnone) as (m1 & m2 & ->). simpl.
  repeat split. eexists. split; [reflexivity | repeat constructor].
Qed.

Lemma null_id_last_match_disables_command_witness :
  let s := mkState blank (Scripted.mkWorld [Raise Scripted.boom] [] None) [] in
  let s1 := snd (__init__ Scripted.panel_null_disarm s) in
  role_id RDisarm (self s1) = VNone
  ∧ fst (command RDisarm s1) = Return tt
  ∧ world (snd (command RDisarm s1)) = world s1
  ∧ ∃ t, trace (snd (command RDisarm s1)) = trace s1 ++ t
         ∧ Forall (λ ev, is_log ev = true) t.
Proof.
  intros s s1.
  destruct (null_id_last_match_disables_command Scripted.panel_null_disarm s
              RDisarm [Scripted.sc "disarm" (VStr "1")] []
              (Scripted.sc_no_id "Off"))
    as [Hnone Hcmd].
  - reflexivity.
  - reflexivity.
  - apply matches_spec. reflexivity.
  - constructor.
  - reflexivity.
  - split; [exact Hnone|]. apply (Hcmd s1). reflexivity.
Defined.

Lemma count_app (p : event → bool) (t1 t2 : list event) :
  count p (t1 ++ t2) = (count p t1 + count p t2)%nat.
Proof. unfold count. rewrite filter_app, length_app. reflexivity. Qed.

(** The result of a command, in closed form. *)
Lemma command_result {W} `{!Collaborators W} (r : Role) (s : state W) :
  fst (command r s)
  = if is_not_None (role_id r (self s)) then
      match activation r s with
      | (Return _, w1) =>
          match async_refresh w1 with
          | (Return u, _) => Return u
          | (Raise e, w2) =>
              if is_Exception e then fst (async_refresh w2) else Raise e
          end
      | (Raise e, w1) =>
          if is_Exception e then fst (async_refresh w1) else Raise e
      end
    else Return tt.
Proof.
  destruct (decide (role_id r (self s) = VNone)) as [Hnone|Hsome].
  - destruct (command_unresolved r s Hnone) as (m1 & m2 & ->).
    rewrite Hnone. reflexivity.
  - destruct (command_resolved r s Hsome) as (m1 & m2 & m3 & Hrun).
    simpl in Hrun. rewrite Hrun.
    replace (is_not_None (role_id r (self s))) with true
      by (destruct (role_id r (self s)); [contradiction | reflexivity..]).
    destruct (activation r s) as [[[]|e] w1].
    + destruct (async_refresh w1) as [[[]|e] w2]; [reflexivity|].
      destruct (is_Exception e); reflexivity.
    + destruct (is_Exception e); reflexivity.
Qed.

(** No handler writes to the entity. *)
Lemma command_frame {W} `{!Collaborators W} (r : Role) (s : state W) :
  self (snd (command r s)) = self s.
Proof.
  destruct (decide (role_id r (self s) = VNone)) as [Hnone|Hsome].
  - destruct (command_unresolved r s Hnone) as (m1 & m2 & ->). reflexivity.
  - destruct (command_resolved r s Hsome) as (m1 & m2 & m3 & Hrun).
    simpl in Hrun. rewrite Hrun.
    destruct (activation r s) as [[[]|e] w1].
    + destruct (async_refresh w1) as [[[]|e] w2]; [reflexivity|].
      destruct (is_Exception e); reflexivity.
    + destruct (is_Exception e); reflexivity.
Qed.

(** C1, as the code has it.  The handler catches what the activation
    raises, as long as it is of class [Exception]; the refresh it then
    requests from the [except] block is not guarded.  So no exception
    leaves a command handler when the REST client raises errors of class
    [Exception] only and the coordinator's refresh does not raise. *)
Theorem command_absorbs_api_errors {W} `{!Collaborators W}
    (r : Role) (s : state W) :
  (∀ dev sid w e,
     fst (activate_scenario dev sid w) = Raise e → is_Exception e = true) →
  (∀ w, fst (async_refresh w) = Return tt) →
  fst (command r s) = Return tt.
Proof.
  intros Hapi Hrefresh. rewrite command_result.
  destruct (is_not_None (role_id r (self s))); [|reflexivity].
  unfold activation.
  destruct (activate_scenario _ _ (world s)) as [[[]|e] w1] eqn:Hact.
  - specialize (Hrefresh w1). destruct (async_refresh w1) as [[[]|e] w2];
      [reflexivity | discriminate].
  - rewrite (Hapi _ _ (world s) e) by (rewrite Hact; reflexivity).
    apply Hrefresh.
Qed.

Lemma command_absorbs_api_errors_witness :
  let s := mkState (mkEntity (VInt 7) (VStr "Home") [] (VStr "1") VNone VNone)
             0%nat [] in
  fst (activation RDisarm s) = Raise (Exn true "ClientError: unreachable")
  ∧ fst (command RDisarm s) = Return tt.
Proof.
  intros s. split; [reflexivity|].
  apply (command_absorbs_api_errors RDisarm s).
  - intros dev sid w e Hraise. simpl in Hraise. injection Hraise as <-.
    reflexivity.
  - intros w. reflexivity.
Defined.

(** C1 fails as stated: the activation fails, the handler logs the error
    and requests the refresh, the refresh raises, and that exception
    leaves the handler. *)
Lemma command_propagates_refresh_error :
  let s := Scripted.built Scripted.panel
             (Scripted.mkWorld [Raise Scripted.boom]
                [(Raise Scripted.down, None)] None) in
  command RDisarm s
  = (Raise Scripted.down,
     mkState (self s) Scripted.quiet
       [Log DEBUG "Disarming system for device %s" [VInt 7];
        Log DEBUG "Sending disarm command to API" [];
        ActivateScenario (VInt 7) (VStr "1");
        Log ERROR "Error disarming system: %s" [VStr "ClientError: boom"];
        AsyncRefresh])
  ∧ fst (command RDisarm s) ≠ Return tt.
Proof. split; [reflexivity | discriminate]. Qed.

(** C2, as the code has it.  When the role's scenario id is resolved and
    the activation returns or raises an error of class [Exception], the
    trace of the command shows the activation call and, after it, a
    refresh request. *)
Theorem refresh_follows_activation {W} `{!Collaborators W}
    (r : Role) (s : state W) :
  role_id r (self s) ≠ VNone →
  (∀ e, fst (activation r s) = Raise e → is_Exception e = true) →
  ∃ t1 t2,
    trace (snd (command r s))
    = trace s ++ t1
      ++ ActivateScenario (_device_id (self s)) (role_id r (self s)) :: t2
    ∧ Forall (λ ev, is_log ev = true) t1
    ∧ AsyncRefresh ∈ t2.
Proof.
  intros Hsome Hexc.
  destruct (command_resolved r s Hsome) as (m1 & m2 & m3 & Hrun).
  simpl in Hrun. rewrite Hrun. clear Hrun.
  exists [Log DEBUG m1 [_device_id (self s)]; Log DEBUG m2 []].
  destruct (activation r s) as [[[]|e] w1].
  - destruct (async_refresh w1) as [[[]|e] w2].
    + exists [AsyncRefresh]. simpl. rewrite <- app_assoc. simpl.
      repeat split; [repeat constructor | apply list_elem_of_here].
    + destruct (is_Exception e); simpl.
      * eexists. rewrite <- app_assoc. simpl.
        repeat split; [repeat constructor | apply list_elem_of_here].
      * exists [AsyncRefresh]. rewrite <- app_assoc. simpl.
        repeat split; [repeat constructor | apply list_elem_of_here].
  - rewrite (Hexc e eq_refl). simpl.
    eexists. rewrite <- app_assoc. simpl.
    repeat split; [repeat constructor |].
    apply list_elem_of_further, list_elem_of_here.
Qed.

Lemma refresh_follows_activation_witness :
  let s := Scripted.built Scripted.panel
             (Scripted.mkWorld [Raise Scripted.boom] [] None) in
  role_id RArmHome (self s) = VStr "2"
  ∧ ∃ t1 t2,
      trace (snd (command RArmHome s))
      = trace s ++ t1 ++ ActivateScenario (VInt 7) (VStr "2") :: t2
      ∧ Forall (λ ev, is_log ev = true) t1
      ∧ AsyncRefresh ∈ t2.
Proof.
  intros s. split; [reflexivity|].
  apply (refresh_follows_activation RArmHome s).
  - discriminate.
  - intros e He. injection He as <-. reflexivity.
Defined.

(** C2 fails as stated: a command whose role is unresolved requests no
    refresh. *)
Lemma unresolved_command_requests_no_refresh :
  let s := Scripted.built Scripted.panel_unmapped Scripted.quiet in
  role_id RDisarm (self s) = VNone
  ∧ trace (snd (command RDisarm s))
    = [Log DEBUG "Disarming system for device %s" [VInt 7];
       Log ERROR "Cannot disarm - no disarm scenario ID found for device %s"
         [VInt 7]]
  ∧ AsyncRefresh ∉ trace (snd (command RDisarm s)).
Proof.
  intros s. split; [reflexivity|]. split; [reflexivity|].
  intros Hin. apply list_elem_of_In in Hin.
  destruct Hin as [Hin|[Hin|[]]]; discriminate Hin.
Qed.

(** C3, as the code has it.  An unresolved command requests no refresh.
    A resolved command requests exactly one refresh when the activation
    raises an error of class [Exception], and when the activation returns
    and the refresh that follows does not itself raise an error of class
    [Exception]. *)
Theorem one_refresh_per_attempt {W} `{!Collaborators W}
    (r : Role) (s : state W) :
  ∃ t,
    trace (snd (command r s)) = trace s ++ t
    ∧ (role_id r (self s) = VNone → count is_refresh t = 0%nat)
    ∧ (role_id r (self s) ≠ VNone →
       (∀ e, fst (activation r s) = Raise e → is_Exception e = true) →
       (fst (activation r s) = Return tt →
        ∀ e, fst (following_refresh r s) = Raise e → is_Exception e = false) →
       count is_refresh t = 1%nat).
Proof.
  destruct (decide (role_id r (self s) = VNone)) as [Hnone|Hsome].
  - destruct (command_unresolved r s Hnone) as (m1 & m2 & ->). simpl.
    eexists. split; [reflexivity|]. split; [reflexivity | contradiction].
  - destruct (command_resolved r s Hsome) as (m1 & m2 & m3 & Hrun).
    simpl in Hrun. rewrite Hrun. clear Hrun. unfold following_refresh.
    destruct (activation r s) as [[[]|e] w1]; simpl.
    + destruct (async_refresh w1) as [[[]|e] w2]; simpl.
      * eexists. rewrite <- app_assoc. split; [reflexivity|].
        split; [contradiction | reflexivity].
      * destruct (is_Exception e) eqn:He; simpl.
        -- eexists. rewrite <- app_assoc. split; [reflexivity|].
           split; [contradiction|]. intros _ _ Hno.
           specialize (Hno eq_refl e eq_refl). congruence.
        -- eexists. rewrite <- app_assoc. split; [reflexivity|].
           split; [contradiction | reflexivity].
    + destruct (is_Exception e) eqn:He; simpl.
      * eexists. rewrite <- app_assoc. split; [reflexivity|].
        split; [contradiction | reflexivity].
      * eexists. split; [reflexivity|].
        split; [contradiction|]. intros _ Hexc _.
        specialize (Hexc e eq_refl). congruence.
Qed.

Lemma one_refresh_per_attempt_witness :
  let ok := Scripted.built Scripted.panel Scripted.quiet in
  let failing := Scripted.built Scripted.panel
                   (Scripted.mkWorld [Raise Scripted.boom] [] None) in
  let unmapped := Scripted.built Scripted.panel_unmapped Scripted.quiet in
  count is_refresh (trace (snd (command RArmAway ok))) = 1%nat
  ∧ count is_refresh (trace (snd (command RArmAway failing))) = 1%nat
  ∧ count is_refresh (trace (snd (command RArmAway unmapped))) = 0%nat.
Proof.
  intros ok failing unmapped. split; [|split].
  - destruct (one_refresh_per_attempt RArmAway ok) as (t & Ht & _ & Hone).
    rewrite Ht. simpl. apply Hone.
    + discriminate.
    + intros e He. discriminate He.
    + intros _ e He. discriminate He.
  - destruct (one_refresh_per_attempt RArmAway failing) as (t & Ht & _ & Hone).
    rewrite Ht. simpl. apply Hone.
    + discriminate.
    + intros e He. injection He as <-. reflexivity.
    + intros He. discriminate He.
  - destruct (one_refresh_per_attempt RArmAway unmapped) as (t & Ht & Hzero & _).
    rewrite Ht. simpl. apply Hzero. reflexivity.
Defined.

(** C3 fails as stated: the activation returns, the refresh that follows
    raises inside the [try] block, and the [except] block requests the
    refresh a second time. *)
Lemma refresh_error_requests_second_refresh :
  let s := Scripted.built Scripted.panel
             (Scripted.mkWorld [] [(Raise Scripted.down, None)] None) in
  role_id RDisarm (self s) = VStr "1"
  ∧ command RDisarm s
    = (Return tt,
       mkState (self s) Scripted.quiet
         [Log DEBUG "Disarming system for device %s" [VInt 7];
          Log DEBUG "Sending disarm command to API" [];
          ActivateScenario (VInt 7) (VStr "1");
          AsyncRefresh;
          Log ERROR "Error disarming system: %s" [VStr "UpdateFailed: down"];
          AsyncRefresh])
  ∧ count is_refresh (trace (snd (command RDisarm s))) = 2%nat.
Proof. repeat split. Qed.

(** ** The state read *)

Lemma state_map_lookup (k : string) :
  SCENARIO_STATE_MAP !! k
  = if decide (k = "0") then Some ARMED_AWAY
    else if decide (k = "1") then Some DISARMED
    else if decide (k = "2") then Some ARMED_HOME
    else None.
Proof.
  unfold SCENARIO_STATE_MAP.
  repeat (rewrite lookup_insert; case_decide; subst;
          [repeat case_decide; congruence|]).
  rewrite lookup_empty. repeat case_decide; congruence.
Qed.

(** The lookup reads the snapshot and changes nothing. *)
Lemma find_device_in_coordinator_run {W} `{!Collaborators W} (s : state W) :
  _find_device_in_coordinator s
  = (Return match data (world s) with
            | Some l => find_device (_device_id (self s)) l
            | None => None
            end, s).
Proof.
  unfold _find_device_in_coordinator, coordinator_data, get_self, mbind, M_bind.
  destruct (data (world s)) as [[|d l]|]; reflexivity.
Qed.

(** The lookup returns the first record whose id equals the entity's. *)
Lemma find_device_Some (id : value) (l : list device) (d : device) :
  find_device id l = Some d →
  d ∈ l ∧ py_eq (dict_get (attrs d) "id") id = true.
Proof.
  induction l as [|x l IH]; simpl; [discriminate|].
  destruct (py_eq (dict_get (attrs x) "id") id) eqn:Heq.
  - intros [= <-]. split; [apply list_elem_of_here | exact Heq].
  - intros Hfind. destruct (IH Hfind) as [Hin Hd].
    split; [apply list_elem_of_further, Hin | exact Hd].
Qed.

Lemma find_device_None (id : value) (l : list device) :
  (∀ d, d ∈ l → py_eq (dict_get (attrs d) "id") id = false) →
  find_device id l = None.
Proof.
  induction l as [|x l IH]; intros Hall; simpl; [reflexivity|].
  rewrite (Hall x) by apply list_elem_of_here.
  apply IH. intros d Hd. apply Hall, list_elem_of_further, Hd.
Qed.

(** A record that carries an id is a non-empty dict. *)
Lemma device_with_id_truthy (d : device) :
  is_Some (attrs d !! "id") → device_truthy d = true.
Proof.
  intros [v Hv]. unfold device_truthy.
  destruct (bool_decide (attrs d = ∅)) eqn:Hempty; [|reflexivity].
  apply bool_decide_eq_true in Hempty. rewrite Hempty, lookup_empty in Hv.
  discriminate.
Qed.

(** The lookup can return an empty dict only to an entity whose own id is
    [None]. *)
Lemma found_falsy_id_None (id : value) (l : list device) (d : device) :
  find_device id l = Some d → device_truthy d = false → id = VNone.
Proof.
  intros Hfind Hfalsy. destruct (find_device_Some id l d Hfind) as [_ Heq].
  unfold device_truthy in Hfalsy. apply negb_false_iff, andb_true_iff in Hfalsy.
  destruct Hfalsy as [Hempty _]. apply bool_decide_eq_true in Hempty.
  unfold dict_get in Heq. rewrite Hempty, lookup_empty in Heq. simpl in Heq.
  destruct id; [reflexivity | discriminate..].
Qed.

Lemma alarm_state_found {W} `{!Collaborators W} (s : state W) (d : device) :
  fst (_find_device_in_coordinator s) = Return (Some d) →
  device_truthy d = true →
  let a := dict_get (attrs d) "active_scenario" in
  ∃ t,
    alarm_state s
    = (Return (Some (default DISARMED
                       (if is_not_None a then SCENARIO_STATE_MAP !! py_str a
                        else None))),
       mkState (self s) (world s) (trace s ++ t))
    ∧ Forall (λ ev, is_log ev = true) t.
Proof.
  intros Hfind Htruthy a. unfold alarm_state, mbind at 1 2, M_bind, get_self.
  rewrite find_device_in_coordinator_run in Hfind |- *. simpl in Hfind.
  injection Hfind as ->. rewrite Htruthy. fold a.
  unfold log, emit, mbind, M_bind, mret, M_ret. simpl.
  destruct (is_not_None a); simpl.
  - destruct (SCENARIO_STATE_MAP !! py_str a); simpl;
      rewrite <- app_assoc; eexists; (split; [reflexivity | repeat constructor]).
  - rewrite <- app_assoc. eexists. split; [reflexivity | repeat constructor].
Qed.

Lemma alarm_state_not_found {W} `{!Collaborators W} (s : state W) :
  fst (_find_device_in_coordinator s) = Return None →
  alarm_state s
  = (Return None,
     mkState (self s) (world s)
       (trace s ++ [Log WARNING "Device %s not found in coordinator data"
                      [_device_id (self s)]])).
Proof.
  intros Hfind. unfold alarm_state, mbind at 1 2, M_bind, get_self.
  rewrite find_device_in_coordinator_run in Hfind |- *. simpl in Hfind.
  injection Hfind as ->. reflexivity.
Qed.

Lemma alarm_state_found_empty {W} `{!Collaborators W} (s : state W)
    (d : device) :
  fst (_find_device_in_coordinator s) = Return (Some d) →
  device_truthy d = false →
  alarm_state s
  = (Return None,
     mkState (self s) (world s)
       (trace s ++ [Log WARNING "Device %s not found in coordinator data"
                      [_device_id (self s)]])).
Proof.
  intros Hfind Hfalsy. unfold alarm_state, mbind at 1 2, M_bind, get_self.
  rewrite find_device_in_coordinator_run in Hfind |- *. simpl in Hfind.
  injection Hfind as ->. rewrite Hfalsy. reflexivity.
Qed.

(** A state read never writes to the entity or to the collaborators. *)
Lemma alarm_state_frame {W} `{!Collaborators W} (s : state W) :
  self (snd (alarm_state s)) = self s ∧ world (snd (alarm_state s)) = world s.
Proof.
  destruct (fst (_find_device_in_coordinator s)) as [[d|]|e] eqn:Hfind.
  - destruct (device_truthy d) eqn:Htruthy.
    + destruct (alarm_state_found s d Hfind Htruthy) as (t & -> & _).
      split; reflexivity.
    + rewrite (alarm_state_found_empty s d Hfind Htruthy). split; reflexivity.
  - rewrite (alarm_state_not_found s Hfind). split; reflexivity.
  - rewrite find_device_in_coordinator_run in Hfind. discriminate.
Qed.

(** C5.  On a device the lookup finds in the latest snapshot (a record
    carrying the device's id), the state read returns [ARMED_AWAY] when
    the stringified active scenario is ["0"], [DISARMED] when it is ["1"],
    [ARMED_HOME] when it is ["2"], and [DISARMED] for every other value,
    a [None] or missing active scenario included. *)
Theorem alarm_state_literal_table {W} `{!Collaborators W}
    (s : state W) (d : device) :
  fst (_find_device_in_coordinator s) = Return (Some d) →
  is_Some (attrs d !! "id") →
  let a := dict_get (attrs d) "active_scenario" in
  (py_str a = "0" → fst (alarm_state s) = Return (Some ARMED_AWAY))
  ∧ (py_str a = "1" → fst (alarm_state s) = Return (Some DISARMED))
  ∧ (py_str a = "2" → fst (alarm_state s) = Return (Some ARMED_HOME))
  ∧ (a = VNone ∨ (py_str a ≠ "0" ∧ py_str a ≠ "1" ∧ py_str a ≠ "2") →
     fst (alarm_state s) = Return (Some DISARMED)).
Proof.
  intros Hfind Hid a.
  destruct (alarm_state_found s d Hfind (device_with_id_truthy d Hid))
    as (t & -> & _).
  fold a. simpl. rewrite state_map_lookup.
  repeat split.
  - intros Hstr. destruct a; try discriminate Hstr;
      simpl; simpl in Hstr; rewrite Hstr; reflexivity.
  - intros Hstr. destruct a; try discriminate Hstr;
      simpl; simpl in Hstr; rewrite Hstr; reflexivity.
  - intros Hstr. destruct a; try discriminate Hstr;
      simpl; simpl in Hstr; rewrite Hstr; reflexivity.
  - intros [-> | (H0 & H1 & H2)]; [reflexivity|].
    destruct (is_not_None a); [|reflexivity].
    repeat case_decide; try contradiction; reflexivity.
Qed.

Lemma alarm_state_literal_table_witness :
  fst (alarm_state (Scripted.reading (VInt 0))) = Return (Some ARMED_AWAY)
  ∧ fst (alarm_state (Scripted.reading (VStr "1"))) = Return (Some DISARMED)
  ∧ fst (alarm_state (Scripted.reading (VInt 2))) = Return (Some ARMED_HOME)
  ∧ fst (alarm_state (Scripted.reading (VInt 5))) = Return (Some DISARMED)
  ∧ fst (alarm_state (Scripted.reading (VBool true))) = Return (Some DISARMED)
  ∧ fst (alarm_state (Scripted.reading VNone)) = Return (Some DISARMED).
Proof.
  assert (Hid : ∀ a, is_Some (attrs (Scripted.dev (VInt 7) a []) !! "id")).
  { intros a. exists (VInt 7). reflexivity. }
  assert (Hfind : ∀ a,
             fst (_find_device_in_coordinator (Scripted.reading a))
             = Return (Some (Scripted.dev (VInt 7) a []))).
  { intros a. vm_compute. reflexivity. }
  pose proof (λ a, alarm_state_literal_table (Scripted.reading a)
                     (Scripted.dev (VInt 7) a []) (Hfind a) (Hid a)) as Htable.
  split; [|split; [|split; [|split; [|split]]]].
  - destruct (Htable (VInt 0)) as (Haway & _). apply Haway. reflexivity.
  - destruct (Htable (VStr "1")) as (_ & Hdis & _). apply Hdis. reflexivity.
  - destruct (Htable (VInt 2)) as (_ & _ & Hhome & _). apply Hhome. reflexivity.
  - destruct (Htable (VInt 5)) as (_ & _ & _ & Hother). apply Hother.
    right. repeat split; discriminate.
  - destruct (Htable (VBool true)) as (_ & _ & _ & Hother). apply Hother.
    right. repeat split; discriminate.
  - destruct (Htable VNone) as (_ & _ & _ & Hother). apply Hother.
    left. reflexivity.
Defined.

(** C6.  When no record of the latest snapshot has the entity's device id
    (the collection may be absent or empty), the state read returns
    [None] without raising; it logs one warning and changes nothing
    else. *)
Theorem alarm_state_device_absent {W} `{!Collaborators W} (s : state W) :
  (∀ l d, data (world s) = Some l → d ∈ l →
          py_eq (dict_get (attrs d) "id") (_device_id (self s)) = false) →
  alarm_state s
  = (Return None,
     mkState (self s) (world s)
       (trace s ++ [Log WARNING "Device %s not found in coordinator data"
                      [_device_id (self s)]])).
Proof.
  intros Habsent. apply alarm_state_not_found.
  rewrite find_device_in_coordinator_run. simpl.
  destruct (data (world s)) as [l|] eqn:Hdata; [|reflexivity].
  rewrite (find_device_None (_device_id (self s)) l); [reflexivity|].
  intros d Hd. exact (Habsent l d eq_refl Hd).
Qed.

Lemma alarm_state_device_absent_witness :
  fst (alarm_state Scripted.reading_others) = Return None
  ∧ fst (alarm_state (Scripted.built Scripted.panel Scripted.quiet)) = Return None
  ∧ fst (alarm_state
           (Scripted.built Scripted.panel (Scripted.mkWorld [] [] (Some []))))
    = Return None.
Proof.
  split; [|split].
  - rewrite (alarm_state_device_absent Scripted.reading_others); [reflexivity|].
    intros l d [= <-] Hd. apply list_elem_of_In in Hd.
    destruct Hd as [<-|[]]. reflexivity.
  - rewrite (alarm_state_device_absent
               (Scripted.built Scripted.panel Scripted.quiet)); [reflexivity|].
    intros l d Hdata. discriminate Hdata.
  - rewrite (alarm_state_device_absent
               (Scripted.built Scripted.panel
                  (Scripted.mkWorld [] [] (Some [])))); [reflexivity|].
    intros l d [= <-] Hd. apply list_elem_of_In in Hd. destruct Hd.
Defined.

(** ** The role mapping is frozen *)

Lemma perform_frame {W} `{!Collaborators W} (o : operation) (s : state W) :
  self (snd (perform o s)) = self s.
Proof.
  destruct o as [|r]; simpl; [|apply command_frame].
  unfold mbind, M_bind, mret, M_ret.
  pose proof (alarm_state_frame s) as [Hself _].
  destruct (alarm_state s) as [[a|e] s']; exact Hself.
Qed.

Lemma perform_all_frame {W} `{!Collaborators W} (ops : list operation)
    (s : state W) :
  self (perform_all ops s) = self s.
Proof.
  revert s. induction ops as [|o ops IH]; intros s; simpl; [reflexivity|].
  rewrite IH. apply perform_frame.
Qed.

(** C9.  The role mapping is the one [__init__] computed: whatever state
    reads and commands follow, in any order and number and whatever the
    collaborators do (later snapshots with other scenario lists
    included), the three scenario ids of the entity, and the entity as a
    whole, stay as construction left them. *)
Theorem role_mapping_frozen {W} `{!Collaborators W}
    (dev : device) (s : state W) (ops : list operation) :
  let built := snd (__init__ dev s) in
  self (perform_all ops built) = self built
  ∧ ∀ r, role_id r (self (perform_all ops built)) = role_id r (self built).
Proof.
  intros built. rewrite perform_all_frame. split; [reflexivity|].
  intros r. reflexivity.
Qed.

(** The mapping survives a refresh that installs a snapshot whose scenario
    list names other ids: the commands keep sending the ids of
    construction. *)
Example role_mapping_frozen_after_refresh :
  let s := Scripted.built Scripted.panel
             (Scripted.mkWorld [] [(Return tt, Scripted.renamed)] None) in
  let s' := perform_all [Command RArmAway; StateRead; Command RDisarm] s in
  data (world s') = Scripted.renamed
  ∧ role_id RArmAway (self s') = VStr "9"
  ∧ role_id RDisarm (self s') = VStr "1"
  ∧ role_id RArmHome (self s') = VStr "2"
  ∧ ActivateScenario (VInt 7) (VStr "1") ∈ trace s'.
Proof.
  intros s s'. split; [reflexivity|].
  pose proof (perform_all_frame
                [Command RArmAway; StateRead; Command RDisarm] s) as Hframe.
  fold s' in Hframe. rewrite Hframe.
  repeat (split; [reflexivity|]).
  apply list_elem_of_In. vm_compute. tauto.
Qed.

(** * Further properties of the code *)

(** ** Construction *)

Lemma map_scenario_raise_state {W} `{!Collaborators W} (sc : scenario)
    (s : state W) :
  lowered_name sc = None →
  ∃ e, map_scenario sc s = (Raise e, s) ∧ is_Exception e = true.
Proof.
  unfold lowered_name, map_scenario. intros Hn.
  destruct (dict_get_default sc "name" (VStr "")) as [| | |nm]; try discriminate;
    eexists; split; reflexivity.
Qed.

(** Whatever the scenario list, the loop of [__init__] only logs, and what
    it raises is of class [Exception]. *)
Lemma for_each_map_scenario_effects {W} `{!Collaborators W}
    (l : list scenario) (s : state W) :
  world (snd (for_each l map_scenario s)) = world s
  ∧ (∀ e, fst (for_each l map_scenario s) = Raise e → is_Exception e = true)
  ∧ ∃ t, trace (snd (for_each l map_scenario s)) = trace s ++ t
         ∧ Forall (λ ev, is_log ev = true) t.
Proof.
  revert s. induction l as [|sc l IH]; intros s.
  - simpl. repeat split; [discriminate|]. exists []. rewrite app_nil_r.
    split; [reflexivity | constructor].
  - simpl. unfold mbind, M_bind.
    destruct (lowered_name sc) as [n|] eqn:Hn.
    + assert (Hsc : is_Some (lowered_name sc)) by (rewrite Hn; eexists; reflexivity).
      destruct (map_scenario_run sc s Hsc) as (t1 & -> & Ht1).
      destruct (IH (mkState (assign_scenario (self s) sc) (world s)
                      (trace s ++ t1))) as (Hw & Hexc & t2 & Ht & Ht2).
      split; [exact Hw|]. split; [exact Hexc|].
      exists (t1 ++ t2). rewrite Ht. simpl. rewrite app_assoc.
      split; [reflexivity | apply Forall_app; split; assumption].
    + destruct (map_scenario_raise_state sc s Hn) as (e & -> & He). simpl.
      split; [reflexivity|]. split; [intros e' [= <-]; exact He|].
      exists []. rewrite app_nil_r. split; [reflexivity | constructor].
Qed.

(** X1.  [__init__] returns exactly on the devices that carry an id and a
    name and whose scenario names are strings or missing; otherwise it
    raises an error of class [Exception] ([KeyError], [AttributeError]).
    Either way it calls no collaborator: their state is untouched and the
    trace gains log lines only. *)
Theorem construction_error_behaviour {W} `{!Collaborators W}
    (dev : device) (s : state W) :
  (fst (__init__ dev s) = Return tt ↔ well_formed dev)
  ∧ (∀ e, fst (__init__ dev s) = Raise e → is_Exception e = true)
  ∧ world (snd (__init__ dev s)) = world s
  ∧ ∃ t, trace (snd (__init__ dev s)) = trace s ++ t
         ∧ Forall (λ ev, is_log ev = true) t.
Proof.
  split; [apply init_returns_iff|].
  unfold __init__, dict_item.
  destruct (attrs dev !! "id") as [id|].
  2:{ simpl. repeat split.
      - intros e [= <-]. reflexivity.
      - exists []. rewrite app_nil_r. split; [reflexivity | constructor]. }
  destruct (attrs dev !! "name") as [name|].
  2:{ simpl. repeat split.
      - intros e [= <-]. reflexivity.
      - exists []. rewrite app_nil_r. split; [reflexivity | constructor]. }
  unfold mbind, M_bind, mret, M_ret, set_self, get_self. simpl.
  set (s1 := mkState _ (world s) (trace s)).
  destruct (for_each_map_scenario_effects (default [] (scenarios dev)) s1)
    as (Hw & Hexc & t & Ht & Hlog).
  split; [exact Hexc|]. split; [exact Hw|]. exists t. split; assumption.
Qed.

(** The entity [__init__] builds does not depend on the state it is built
    in. *)
Lemma init_self_independent {W} `{!Collaborators W} {W'}
    `{!Collaborators W'} (dev : device) (s : state W) (s' : state W') :
  well_formed dev →
  self (snd (__init__ dev s)) = self (snd (__init__ dev s')).
Proof.
  intros ([id Hid] & [name Hname] & Hl).
  destruct (init_run dev s id name Hid Hname Hl) as (t & -> & _).
  destruct (init_run dev s' id name Hid Hname Hl) as (t' & -> & _).
  reflexivity.
Qed.

Lemma fold_assign_scenario_fields (l : list scenario) (e : Entity) :
  _device_id (fold_left assign_scenario l e) = _device_id e
  ∧ _attr_name (fold_left assign_scenario l e) = _attr_name e
  ∧ _scenarios (fold_left assign_scenario l e) = _scenarios e.
Proof.
  revert e. induction l as [|sc l IH]; intros e; simpl; [repeat split|].
  destruct (IH (assign_scenario e sc)) as (-> & -> & ->).
  unfold assign_scenario. destruct (lowered_name sc) as [n|]; [|repeat split].
  unfold assign. repeat case_bool_decide; repeat split.
Qed.

(** X2.  On a device it accepts, [__init__] stores the device's id, its
    name and its scenario list (the empty list when the device has no
    ["scenarios"] entry) in the entity. *)
Theorem construction_stores_device {W} `{!Collaborators W}
    (dev : device) (s : state W) (id name : value) :
  fst (__init__ dev s) = Return tt →
  attrs dev !! "id" = Some id →
  attrs dev !! "name" = Some name →
  _device_id (self (snd (__init__ dev s))) = id
  ∧ _attr_name (self (snd (__init__ dev s))) = name
  ∧ _scenarios (self (snd (__init__ dev s))) = default [] (scenarios dev).
Proof.
  intros Hret Hid Hname.
  destruct (init_inv dev s Hret) as (_ & _ & Hl).
  destruct (init_run dev s id name Hid Hname Hl) as (t & -> & _). simpl.
  destruct (fold_assign_scenario_fields (default [] (scenarios dev))
              (mkEntity id name (default [] (scenarios dev)) VNone VNone VNone))
    as (-> & -> & ->).
  repeat split.
Qed.

Lemma construction_stores_device_witness :
  let s := mkState blank Scripted.quiet [] in
  _device_id (self (snd (__init__ Scripted.panel s))) = VInt 7
  ∧ _attr_name (self (snd (__init__ Scripted.panel s))) = VStr "Home"
  ∧ _scenarios (self (snd (__init__ Scripted.panel s)))
    = Scripted.panel_scenarios.
Proof.
  intros s.
  apply (construction_stores_device Scripted.panel s (VInt 7) (VStr "Home"));
    reflexivity.
Defined.

Lemma matches_lowered_name (r : Role) (sc sc' : scenario) :
  lowered_name sc = lowered_name sc' → matches r sc → matches r sc'.
Proof. intros Heq (n & Hn & Hin). exists n. rewrite <- Heq. auto. Qed.

Lemma role_id_fold_congruence (l l' : list scenario) (e e' : Entity) :
  Forall2 (λ sc sc', lowered_name sc = lowered_name sc'
                     ∧ dict_get sc "id" = dict_get sc' "id") l l' →
  (∀ r, role_id r e = role_id r e') →
  ∀ r, role_id r (fold_left assign_scenario l e)
       = role_id r (fold_left assign_scenario l' e').
Proof.
  intros Hll. revert e e'.
  induction Hll as [|sc sc' l l' [Hname Hid] _ IH]; intros e e' Hee r; simpl.
  - apply Hee.
  - apply IH. intros r'.
    destruct (matches_dec r' sc) as [Hm|Hm].
    + rewrite (role_id_assign_scenario_match r' sc e Hm).
      rewrite (role_id_assign_scenario_match r' sc' e'
                 (matches_lowered_name r' sc sc' Hname Hm)).
      exact Hid.
    + rewrite (role_id_assign_scenario_other r' sc e Hm).
      rewrite (role_id_assign_scenario_other r' sc' e'); [apply Hee|].
      intros Hm'. apply Hm.
      exact (matches_lowered_name r' sc' sc (eq_sym Hname) Hm').
Qed.

(** X3.  The role mapping depends on the scenario list only through the
    lower-cased names and the ids, position by position: two devices whose
    scenarios agree on those get the same three scenario ids, whatever the
    case of the names and whatever else the records hold. *)
Theorem role_mapping_case_insensitive {W} `{!Collaborators W}
    (dev dev' : device) (s s' : state W) :
  fst (__init__ dev s) = Return tt →
  fst (__init__ dev' s') = Return tt →
  Forall2 (λ sc sc', lowered_name sc = lowered_name sc'
                     ∧ dict_get sc "id" = dict_get sc' "id")
    (default [] (scenarios dev)) (default [] (scenarios dev')) →
  ∀ r, role_id r (self (snd (__init__ dev s)))
       = role_id r (self (snd (__init__ dev' s'))).
Proof.
  intros Hret Hret' Hll r.
  destruct (init_self dev s Hret) as (id & name & -> & _).
  destruct (init_self dev' s' Hret') as (id' & name' & -> & _).
  apply role_id_fold_congruence; [exact Hll|].
  intros r'. destruct r'; reflexivity.
Qed.

Lemma role_mapping_case_insensitive_witness :
  let s := mkState blank Scripted.quiet [] in
  let upper := Scripted.dev (VInt 7) (VInt 0)
                 [Scripted.sc "AWAY" (VStr "0"); Scripted.sc "Off" (VStr "1")] in
  let lowercase := Scripted.dev (VInt 9) (VInt 1)
                     [Scripted.sc "away" (VStr "0"); Scripted.sc "OFF" (VStr "1")] in
  role_id RArmAway (self (snd (__init__ upper s)))
  = role_id RArmAway (self (snd (__init__ lowercase s)))
  ∧ role_id RDisarm (self (snd (__init__ upper s)))
    = role_id RDisarm (self (snd (__init__ lowercase s))).
Proof.
  intros s upper lowercase.
  assert (Hsame : Forall2 (λ sc sc', lowered_name sc = lowered_name sc'
                                     ∧ dict_get sc "id" = dict_get sc' "id")
                    (default [] (scenarios upper))
                    (default [] (scenarios lowercase)))
    by (repeat constructor).
  split.
  - apply (role_mapping_case_insensitive upper lowercase s s eq_refl eq_refl
             Hsame RArmAway).
  - apply (role_mapping_case_insensitive upper lowercase s s eq_refl eq_refl
             Hsame RDisarm).
Defined.

(** ** Platform setup *)

Lemma well_formed_dec (dev : device) : well_formed dev ∨ ¬ well_formed dev.
Proof.
  unfold well_formed.
  destruct (decide (is_Some (attrs dev !! "id"))) as [Hid|Hid];
    [|right; tauto].
  destruct (decide (is_Some (attrs dev !! "name"))) as [Hname|Hname];
    [|right; tauto].
  destruct (decide (Forall (λ sc, is_Some (lowered_name sc))
                      (default [] (scenarios dev)))) as [Hl|Hl];
    [left; tauto | right; tauto].
Qed.

Lemma construct_well_formed {W} `{!Collaborators W} (dev : device) (w : W)
    (t : list event) :
  well_formed dev →
  ∃ t', construct dev w t
        = (Return (self (snd (__init__ dev (mkState blank w [])))), (w, t ++ t'))
        ∧ Forall (λ ev, is_log ev = true) t'.
Proof.
  intros Hwf. unfold construct.
  rewrite (init_self_independent dev (mkState blank w []) (mkState blank w t) Hwf).
  destruct (construction_error_behaviour dev (mkState blank w t))
    as (Hiff & _ & Hw & t' & Ht & Hlog).
  apply Hiff in Hwf.
  destruct (__init__ dev (mkState blank w t)) as [r s1]. simpl in *.
  subst r. rewrite Hw, Ht. exists t'. split; [reflexivity | exact Hlog].
Qed.

Lemma construct_malformed {W} `{!Collaborators W} (dev : device) (w : W)
    (t : list event) :
  ¬ well_formed dev →
  ∃ e t', construct dev w t = (Raise e, (w, t ++ t')) ∧ is_Exception e = true
          ∧ Forall (λ ev, is_log ev = true) t'.
Proof.
  intros Hwf. unfold construct.
  destruct (construction_error_behaviour dev (mkState blank w t))
    as (Hiff & Hexc & Hw & t' & Ht & Hlog).
  destruct (__init__ dev (mkState blank w t)) as [[[]|e] s1]; simpl in *.
  - exfalso. apply Hwf, Hiff. reflexivity.
  - exists e, t'. rewrite Hw, Ht.
    split; [reflexivity|]. split; [apply Hexc; reflexivity | exact Hlog].
Qed.

Lemma setup_loop_well_formed {W} `{!Collaborators W} (l : list device)
    (acc : list Entity) (w : W) (t : list event) :
  Forall well_formed l →
  ∃ t', setup_loop l acc w t
        = (Return (acc ++ map (λ dev, self (snd (__init__ dev (mkState blank w []))))
                            l),
           (w, t ++ t'))
        ∧ Forall (λ ev, is_log ev = true) t'.
Proof.
  intros Hl. revert acc t. induction Hl as [|dev l Hdev _ IH]; intros acc t.
  - exists []. simpl. rewrite !app_nil_r. split; [reflexivity | constructor].
  - simpl.
    destruct (construct_well_formed dev w
                (t ++ [Log INFO "Adding alarm control panel for device: %s"
                         [dict_get (attrs dev) "name"]]) Hdev)
      as (t1 & -> & Ht1).
    destruct (IH (acc ++ [self (snd (__init__ dev (mkState blank w [])))])
                ((t ++ [Log INFO "Adding alarm control panel for device: %s"
                          [dict_get (attrs dev) "name"]]) ++ t1))
      as (t2 & -> & Ht2).
    eexists. rewrite <- !app_assoc. simpl. split; [reflexivity|].
    constructor; [reflexivity|]. apply Forall_app. split; assumption.
Qed.

Lemma setup_loop_malformed {W} `{!Collaborators W} (l : list device)
    (acc : list Entity) (w : W) (t : list event) :
  Exists (λ dev, ¬ well_formed dev) l →
  ∃ e t', setup_loop l acc w t = (Raise e, (w, t ++ t'))
          ∧ is_Exception e = true
          ∧ Forall (λ ev, is_log ev = true) t'.
Proof.
  revert acc t. induction l as [|dev l IH]; intros acc t Hex.
  - apply Exists_nil in Hex. destruct Hex.
  - simpl. destruct (well_formed_dec dev) as [Hwf|Hwf].
    + destruct (construct_well_formed dev w
                  (t ++ [Log INFO "Adding alarm control panel for device: %s"
                           [dict_get (attrs dev) "name"]]) Hwf)
        as (t1 & -> & Ht1).
      apply Exists_cons in Hex. destruct Hex as [Hbad|Hex]; [contradiction|].
      destruct (IH (acc ++ [self (snd (__init__ dev (mkState blank w [])))])
                  ((t ++ [Log INFO "Adding alarm control panel for device: %s"
                            [dict_get (attrs dev) "name"]]) ++ t1) Hex)
        as (e & t2 & -> & He & Ht2).
      exists e. eexists. rewrite <- !app_assoc. simpl.
      split; [reflexivity|]. split; [exact He|].
      constructor; [reflexivity|]. apply Forall_app. split; assumption.
    + destruct (construct_malformed dev w
                  (t ++ [Log INFO "Adding alarm control panel for device: %s"
                           [dict_get (attrs dev) "name"]]) Hwf)
        as (e & t1 & -> & He & Ht1).
      exists e. eexists. rewrite <- !app_assoc. simpl.
      split; [reflexivity|]. split; [exact He|].
      constructor; [reflexivity | exact Ht1].
Qed.

(** X4.  With no snapshot, or an empty one, setup builds no entity, never
    calls [async_add_entities], logs nothing and returns. *)
Theorem setup_without_devices {W} `{!Collaborators W} (st : setup_state W) :
  data (setup_world st) = None ∨ data (setup_world st) = Some [] →
  async_setup_entry st = (Return tt, st).
Proof.
  intros Hdata. unfold async_setup_entry.
  destruct Hdata as [-> | ->]; simpl; destruct st; reflexivity.
Qed.

Lemma setup_without_devices_witness :
  async_setup_entry (mkSetup Scripted.quiet [] [])
  = (Return tt, mkSetup Scripted.quiet [] [])
  ∧ async_setup_entry (mkSetup (Scripted.mkWorld [] [] (Some [])) [] [])
    = (Return tt, mkSetup (Scripted.mkWorld [] [] (Some [])) [] []).
Proof.
  split.
  - apply (setup_without_devices (mkSetup Scripted.quiet [] [])).
    left. reflexivity.
  - apply (setup_without_devices
             (mkSetup (Scripted.mkWorld [] [] (Some [])) [] [])).
    right. reflexivity.
Defined.

(** X5.  When every device of a non-empty snapshot is one [__init__]
    accepts, setup returns and calls [async_add_entities] exactly once,
    with one entity per device in snapshot order, each the entity
    [__init__] builds from that device.  It calls no collaborator and adds
    log lines only. *)
Theorem setup_adds_one_entity_per_device {W} `{!Collaborators W}
    (st : setup_state W) (l : list device) :
  data (setup_world st) = Some l →
  l ≠ [] →
  Forall well_formed l →
  ∃ t,
    async_setup_entry st
    = (Return tt,
       mkSetup (setup_world st) (setup_trace st ++ t)
         (added st
          ++ [map (λ dev, self (snd (__init__ dev
                                       (mkState blank (setup_world st) []))))
                l]))
    ∧ Forall (λ ev, is_log ev = true) t.
Proof.
  intros Hdata Hne Hl. unfold async_setup_entry. rewrite Hdata.
  destruct l as [|dev l]; [contradiction|].
  destruct (setup_loop_well_formed (dev :: l) [] (setup_world st)
              (setup_trace st) Hl) as (t & -> & Ht).
  simpl. eexists. rewrite <- app_assoc. split; [reflexivity|].
  apply Forall_app. split; [exact Ht | repeat constructor].
Qed.

Lemma setup_adds_one_entity_per_device_witness :
  let w := Scripted.mkWorld [] []
             (Some [Scripted.panel; Scripted.panel_null_disarm]) in
  fst (async_setup_entry (mkSetup w [] [])) = Return tt
  ∧ map (map _arm_away_scenario_id)
      (added (snd (async_setup_entry (mkSetup w [] []))))
    = [[VStr "9"; VNone]].
Proof.
  intros w.
  destruct (setup_adds_one_entity_per_device (mkSetup w [] [])
              [Scripted.panel; Scripted.panel_null_disarm]) as (t & Hrun & _).
  - reflexivity.
  - discriminate.
  - repeat constructor; try (eexists; reflexivity).
  - rewrite Hrun. split; reflexivity.
Defined.

(** X6.  When some device of the snapshot is one [__init__] rejects, setup
    raises that error (of class [Exception]) and [async_add_entities] is
    never called: the entities already built for the devices listed
    before it are not registered either. *)
Theorem setup_aborts_on_malformed_device {W} `{!Collaborators W}
    (st : setup_state W) (l : list device) :
  data (setup_world st) = Some l →
  Exists (λ dev, ¬ well_formed dev) l →
  ∃ e t,
    async_setup_entry st
    = (Raise e, mkSetup (setup_world st) (setup_trace st ++ t) (added st))
    ∧ is_Exception e = true
    ∧ Forall (λ ev, is_log ev = true) t.
Proof.
  intros Hdata Hex. unfold async_setup_entry. rewrite Hdata.
  destruct l as [|dev l]; [apply Exists_nil in Hex; destruct Hex|].
  destruct (setup_loop_malformed (dev :: l) [] (setup_world st)
              (setup_trace st) Hex) as (e & t & -> & He & Ht).
  exists e, t. repeat split; assumption.
Qed.

Lemma setup_aborts_on_malformed_device_witness :
  let nameless := Device (<["id" := VInt 8]> ∅) None in
  let w := Scripted.mkWorld [] [] (Some [Scripted.panel; nameless]) in
  fst (async_setup_entry (mkSetup w [] [])) = Raise (Exn true "KeyError: name")
  ∧ added (snd (async_setup_entry (mkSetup w [] []))) = [].
Proof.
  intros nameless w.
  destruct (setup_aborts_on_malformed_device (mkSetup w [] [])
              [Scripted.panel; nameless]) as (e & t & Hrun & _).
  - reflexivity.
  - apply Exists_cons. right. apply Exists_cons. left.
    intros (_ & [v Hv] & _). discriminate Hv.
  - split; reflexivity.
Defined.

(** ** Command dispatch *)

(** X7.  A command whose role holds a scenario id calls
    [activate_scenario] exactly once, with the entity's device id and that
    role's id, before any refresh and whatever the collaborators answer:
    the activation is never retried and no other role's id is sent. *)
Theorem resolved_command_activates_once {W} `{!Collaborators W}
    (r : Role) (s : state W) :
  role_id r (self s) ≠ VNone →
  ∃ t1 t2,
    trace (snd (command r s))
    = trace s ++ t1
      ++ ActivateScenario (_device_id (self s)) (role_id r (self s)) :: t2
    ∧ Forall (λ ev, is_log ev = true) t1
    ∧ Forall (λ ev, is_activate ev = false) t2.
Proof.
  intros Hsome.
  destruct (command_resolved r s Hsome) as (m1 & m2 & m3 & Hrun).
  simpl in Hrun. rewrite Hrun. clear Hrun.
  exists [Log DEBUG m1 [_device_id (self s)]; Log DEBUG m2 []].
  destruct (activation r s) as [[[]|e] w1].
  - destruct (async_refresh w1) as [[[]|e] w2];
      [|destruct (is_Exception e)]; simpl;
      eexists; rewrite <- app_assoc; simpl;
      (split; [reflexivity | split; repeat constructor]).
  - destruct (is_Exception e); simpl.
    + eexists. rewrite <- app_assoc. simpl.
      split; [reflexivity | split; repeat constructor].
    + exists []. simpl.
      split; [reflexivity | split; repeat constructor].
Qed.

Lemma resolved_command_activates_once_witness :
  let s := Scripted.built Scripted.panel
             (Scripted.mkWorld [Raise Scripted.boom]
                [(Raise Scripted.down, None)] None) in
  ∃ t1 t2,
    trace (snd (command RArmAway s))
    = trace s ++ t1 ++ ActivateScenario (VInt 7) (VStr "9") :: t2
    ∧ Forall (λ ev, is_log ev = true) t1
    ∧ Forall (λ ev, is_activate ev = false) t2.
Proof.
  intros s. apply (resolved_command_activates_once RArmAway s). discriminate.
Defined.

(** Evaluates the counts of a goal over an explicit trace. *)
Ltac eval_count :=
  repeat match goal with
  | |- context [count ?p ?t] =>
      let n := eval cbv in (count p t) in
      progress change (count p t) with n
  end.

(** X8.  A command requests the refresh at most twice, and twice exactly
    when the role is resolved, the activation returns and the refresh that
    follows raises an error of class [Exception]. *)
Theorem refresh_count_bounds {W} `{!Collaborators W} (r : Role) (s : state W) :
  ∃ t,
    trace (snd (command r s)) = trace s ++ t
    ∧ (count is_refresh t ≤ 2)%nat
    ∧ (count is_refresh t = 2%nat
       ↔ role_id r (self s) ≠ VNone
         ∧ fst (activation r s) = Return tt
         ∧ ∃ e, fst (following_refresh r s) = Raise e ∧ is_Exception e = true).
Proof.
  destruct (decide (role_id r (self s) = VNone)) as [Hnone|Hsome].
  - destruct (command_unresolved r s Hnone) as (m1 & m2 & ->). simpl.
    eexists. split; [reflexivity|]. eval_count. split; [lia|].
    split; [discriminate | intros (Hne & _); contradiction].
  - destruct (command_resolved r s Hsome) as (m1 & m2 & m3 & Hrun).
    simpl in Hrun. rewrite Hrun. clear Hrun. unfold following_refresh.
    destruct (activation r s) as [[[]|e] w1]; simpl.
    + destruct (async_refresh w1) as [[[]|e] w2]; simpl.
      * eexists. rewrite <- app_assoc. split; [reflexivity|].
        eval_count. split; [lia|].
        split; [discriminate | intros (_ & _ & e & He & _); discriminate].
      * destruct (is_Exception e) eqn:He; simpl.
        -- eexists. rewrite <- app_assoc. split; [reflexivity|].
           eval_count. split; [lia|].
           split; [intros _; repeat split; eauto | reflexivity].
        -- eexists. rewrite <- app_assoc. split; [reflexivity|].
           eval_count. split; [lia|].
           split; [discriminate|].
           intros (_ & _ & e' & [= <-] & He'). congruence.
    + destruct (is_Exception e) eqn:He; simpl.
      * eexists. rewrite <- app_assoc. split; [reflexivity|].
        eval_count. split; [lia|].
        split; [discriminate | intros (_ & Hact & _); discriminate].
      * eexists. split; [reflexivity|].
        eval_count. split; [lia|].
        split; [discriminate | intros (_ & Hact & _); discriminate].
Qed.

(** X9.  An error outside class [Exception] raised by the activation (a
    cancellation) is not swallowed: the command raises it, requests no
    refresh and writes no error line. *)
Theorem cancellation_propagates {W} `{!Collaborators W}
    (r : Role) (s : state W) (e : exn) :
  role_id r (self s) ≠ VNone →
  fst (activation r s) = Raise e →
  is_Exception e = false →
  ∃ m1 m2,
    command r s
    = (Raise e,
       mkState (self s) (snd (activation r s))
         (trace s ++ [Log DEBUG m1 [_device_id (self s)]; Log DEBUG m2 [];
                      ActivateScenario (_device_id (self s))
                        (role_id r (self s))])).
Proof.
  intros Hsome Hact He.
  destruct (command_resolved r s Hsome) as (m1 & m2 & m3 & Hrun).
  simpl in Hrun. rewrite Hrun. clear Hrun.
  destruct (activation r s) as [[[]|e'] w1]; simpl in Hact; [discriminate|].
  injection Hact as ->. rewrite He. exists m1, m2. reflexivity.
Qed.

Lemma cancellation_propagates_witness :
  let s := Scripted.built Scripted.panel
             (Scripted.mkWorld [Raise Scripted.cancelled] [] None) in
  fst (command RDisarm s) = Raise Scripted.cancelled
  ∧ count is_refresh (trace (snd (command RDisarm s))) = 0%nat.
Proof.
  intros s.
  destruct (cancellation_propagates RDisarm s Scripted.cancelled)
    as (m1 & m2 & Hrun).
  - discriminate.
  - reflexivity.
  - reflexivity.
  - rewrite Hrun. split; reflexivity.
Defined.

(** X10.  An error of class [Exception] leaves a command only from the
    refresh requested in the [except] block: the trace then ends with the
    handler's error line and that refresh request. *)
Theorem escaped_exception_comes_from_refresh {W} `{!Collaborators W}
    (r : Role) (s : state W) (e : exn) :
  fst (command r s) = Raise e →
  is_Exception e = true →
  ∃ t m a w,
    trace (snd (command r s)) = trace s ++ t ++ [Log ERROR m a; AsyncRefresh]
    ∧ fst (async_refresh w) = Raise e.
Proof.
  intros Hraise He.
  destruct (decide (role_id r (self s) = VNone)) as [Hnone|Hsome].
  { destruct (command_unresolved r s Hnone) as (m1 & m2 & Hrun).
    rewrite Hrun in Hraise. discriminate. }
  destruct (command_resolved r s Hsome) as (m1 & m2 & m3 & Hrun).
  simpl in Hrun. rewrite Hrun in Hraise |- *. clear Hrun.
  destruct (activation r s) as [[[]|e1] w1].
  - destruct (async_refresh w1) as [[[]|e2] w2] eqn:Hr1; [discriminate|].
    destruct (is_Exception e2) eqn:He2; simpl in Hraise |- *.
    + eexists (_ :: _ :: _ :: [_]), m3, _, w2.
      rewrite <- !app_assoc. simpl. split; [reflexivity | exact Hraise].
    + injection Hraise as ->. congruence.
  - destruct (is_Exception e1) eqn:He1; simpl in Hraise |- *.
    + eexists (_ :: _ :: [_]), m3, _, w1.
      rewrite <- !app_assoc. simpl. split; [reflexivity | exact Hraise].
    + injection Hraise as ->. congruence.
Qed.

Lemma escaped_exception_comes_from_refresh_witness :
  let s := Scripted.built Scripted.panel
             (Scripted.mkWorld [Raise Scripted.boom]
                [(Raise Scripted.down, None)] None) in
  ∃ t m a w,
    trace (snd (command RArmHome s)) = trace s ++ t ++ [Log ERROR m a; AsyncRefresh]
    ∧ fst (async_refresh w) = Raise Scripted.down.
Proof.
  intros s.
  apply (escaped_exception_comes_from_refresh RArmHome s Scripted.down);
    reflexivity.
Defined.

(** X11.  Construction and dispatch compose: when the last scenario that
    matches a role carries an id, the role's command sends
    [activate_scenario] the device's id and that scenario's id. *)
Theorem command_sends_last_matching_id {W} `{!Collaborators W}
    (dev : device) (s s' : state W) (r : Role)
    (l1 l2 : list scenario) (sc : scenario) :
  fst (__init__ dev s) = Return tt →
  default [] (scenarios dev) = l1 ++ sc :: l2 →
  matches r sc →
  Forall (λ x, ¬ matches r x) l2 →
  dict_get sc "id" ≠ VNone →
  self s' = self (snd (__init__ dev s)) →
  ∃ t1 t2,
    trace (snd (command r s'))
    = trace s' ++ t1
      ++ ActivateScenario (dict_get (attrs dev) "id") (dict_get sc "id") :: t2
    ∧ Forall (λ ev, is_log ev = true) t1
    ∧ Forall (λ ev, is_activate ev = false) t2.
Proof.
  intros Hret Hl Hm Hl2 Hid Hself.
  assert (Hrole : role_id r (self s') = dict_get sc "id").
  { rewrite Hself. destruct (init_self dev s Hret) as (id & name & -> & _).
    rewrite Hl. apply role_id_fold_last; assumption. }
  assert (Hdev : _device_id (self s') = dict_get (attrs dev) "id").
  { rewrite Hself. destruct (init_inv dev s Hret) as ([id Hi] & [name Hn] & Hsc).
    destruct (init_run dev s id name Hi Hn Hsc) as (t & -> & _). simpl.
    destruct (fold_assign_scenario_fields (default [] (scenarios dev))
                (mkEntity id name (default [] (scenarios dev)) VNone VNone VNone))
      as (-> & _). unfold dict_get. rewrite Hi. reflexivity. }
  assert (Hsome : role_id r (self s') ≠ VNone) by (rewrite Hrole; exact Hid).
  destruct (command_resolved r s' Hsome) as (m1 & m2 & m3 & Hrun).
  simpl in Hrun. rewrite Hrun. clear Hrun. rewrite Hrole, Hdev.
  exists [Log DEBUG m1 [dict_get (attrs dev) "id"]; Log DEBUG m2 []].
  destruct (activation r s') as [[[]|e] w1].
  - destruct (async_refresh w1) as [[[]|e] w2];
      [|destruct (is_Exception e)]; simpl;
      eexists; rewrite <- app_assoc; simpl;
      (split; [reflexivity | split; repeat constructor]).
  - destruct (is_Exception e); simpl.
    + eexists. rewrite <- app_assoc. simpl.
      split; [reflexivity | split; repeat constructor].
    + exists []. simpl.
      split; [reflexivity | split; repeat constructor].
Qed.

Lemma command_sends_last_matching_id_witness :
  let s := mkState blank Scripted.quiet [] in
  let s' := Scripted.built Scripted.panel Scripted.quiet in
  ∃ t1 t2,
    trace (snd (command RArmAway s'))
    = trace s' ++ t1 ++ ActivateScenario (VInt 7) (VStr "9") :: t2
    ∧ Forall (λ ev, is_log ev = true) t1
    ∧ Forall (λ ev, is_activate ev = false) t2.
Proof.
  intros s s'.
  apply (command_sends_last_matching_id Scripted.panel s s' RArmAway
           [Scripted.sc "Away" (VStr "0"); Scripted.sc "Off" (VStr "1");
            Scripted.sc "Partial" (VStr "2")]
           [Scripted.sc "armed" (VStr "5")]
           (Scripted.sc "ARM" (VStr "9"))).
  - reflexivity.
  - reflexivity.
  - apply matches_spec. reflexivity.
  - repeat constructor. apply not_matches_spec. reflexivity.
  - discriminate.
  - reflexivity.
Defined.

(** ** State read *)

(** X12.  A state read never raises and is read-only: in every state it
    returns, leaves the entity and the collaborators as they were and adds
    log lines only. *)
Theorem alarm_state_read_only {W} `{!Collaborators W} (s : state W) :
  ∃ st t,
    alarm_state s = (Return st, mkState (self s) (world s) (trace s ++ t))
    ∧ Forall (λ ev, is_log ev = true) t.
Proof.
  destruct (fst (_find_device_in_coordinator s)) as [[d|]|e] eqn:Hfind.
  - destruct (device_truthy d) eqn:Htruthy.
    + destruct (alarm_state_found s d Hfind Htruthy) as (t & -> & Ht).
      eexists _, t. split; [reflexivity | exact Ht].
    + rewrite (alarm_state_found_empty s d Hfind Htruthy).
      eexists _, _. split; [reflexivity | repeat constructor].
  - rewrite (alarm_state_not_found s Hfind).
    eexists _, _. split; [reflexivity | repeat constructor].
  - rewrite find_device_in_coordinator_run in Hfind. discriminate.
Qed.

(** X13.  The state a read reports depends on the entity's device id and
    on the snapshot only: the role mapping plays no part and no command
    updates the state optimistically.  A read after a command that left
    the snapshot as it was reports what a read before it reports. *)
Theorem alarm_state_depends_on_snapshot_only {W} `{!Collaborators W}
    (s s' : state W) :
  _device_id (self s) = _device_id (self s') →
  data (world s) = data (world s') →
  fst (alarm_state s) = fst (alarm_state s').
Proof.
  intros Hid Hdata.
  assert (Hfind : fst (_find_device_in_coordinator s)
                  = fst (_find_device_in_coordinator s')).
  { rewrite !find_device_in_coordinator_run. simpl. rewrite Hid, Hdata.
    reflexivity. }
  destruct (fst (_find_device_in_coordinator s)) as [[d|]|e] eqn:Hs.
  - symmetry in Hfind. destruct (device_truthy d) eqn:Htruthy.
    + destruct (alarm_state_found s d Hs Htruthy) as (t & -> & _).
      destruct (alarm_state_found s' d Hfind Htruthy) as (t' & -> & _).
      reflexivity.
    + rewrite (alarm_state_found_empty s d Hs Htruthy).
      rewrite (alarm_state_found_empty s' d Hfind Htruthy). reflexivity.
  - symmetry in Hfind.
    rewrite (alarm_state_not_found s Hs), (alarm_state_not_found s' Hfind).
    reflexivity.
  - rewrite find_device_in_coordinator_run in Hs. discriminate.
Qed.

Lemma alarm_state_depends_on_snapshot_only_witness :
  let s := Scripted.reading (VInt 2) in
  fst (alarm_state (snd (command RDisarm s))) = fst (alarm_state s).
Proof.
  intros s.
  apply (alarm_state_depends_on_snapshot_only (snd (command RDisarm s)) s);
    reflexivity.
Defined.

(** X14.  The lookup takes the first record of the snapshot whose id
    equals the entity's: when the device is listed more than once, the
    state comes from the first listing and later ones are ignored. *)
Theorem alarm_state_first_record_wins {W} `{!Collaborators W}
    (s : state W) (l1 l2 : list device) (d : device) :
  data (world s) = Some (l1 ++ d :: l2) →
  Forall (λ x, py_eq (dict_get (attrs x) "id") (_device_id (self s)) = false)
    l1 →
  py_eq (dict_get (attrs d) "id") (_device_id (self s)) = true →
  is_Some (attrs d !! "id") →
  let a := dict_get (attrs d) "active_scenario" in
  fst (alarm_state s)
  = Return (Some (default DISARMED
                    (if is_not_None a then SCENARIO_STATE_MAP !! py_str a
                     else None))).
Proof.
  intros Hdata Hl1 Hd Hid a.
  assert (Hfind : fst (_find_device_in_coordinator s) = Return (Some d)).
  { rewrite find_device_in_coordinator_run. simpl. rewrite Hdata.
    do 2 f_equal. clear Hdata.
    induction Hl1 as [|x l1 Hx _ IH]; simpl.
    - rewrite Hd. reflexivity.
    - rewrite Hx. exact IH. }
  destruct (alarm_state_found s d Hfind (device_with_id_truthy d Hid))
    as (t & -> & _).
  reflexivity.
Qed.

Lemma alarm_state_first_record_wins_witness :
  let s := Scripted.built Scripted.panel
             (Scripted.mkWorld [] []
                (Some [Scripted.dev (VInt 8) (VInt 1) [];
                       Scripted.dev (VInt 7) (VInt 0) [];
                       Scripted.dev (VInt 7) (VInt 2) []])) in
  fst (alarm_state s) = Return (Some ARMED_AWAY).
Proof.
  intros s.
  apply (alarm_state_first_record_wins s
           [Scripted.dev (VInt 8) (VInt 1) []]
           [Scripted.dev (VInt 7) (VInt 2) []]
           (Scripted.dev (VInt 7) (VInt 0) [])).
  - reflexivity.
  - repeat constructor.
  - reflexivity.
  - exists (VInt 7). reflexivity.
Defined.

Lemma py_str_int (n m : Z) : py_str (VInt n) = pretty m ↔ n = m.
Proof.
  simpl. split; [apply pretty_Z_inj | intros ->; reflexivity].
Qed.

(** X15.  For an integer active scenario the state is [ARMED_AWAY] exactly
    at 0 and [ARMED_HOME] exactly at 2, and [DISARMED] at every other
    integer; a boolean active scenario always reads [DISARMED], although
    [True == 1] in Python, because the table is keyed by [str]. *)
Theorem alarm_state_of_integer {W} `{!Collaborators W}
    (s : state W) (d : device) :
  fst (_find_device_in_coordinator s) = Return (Some d) →
  is_Some (attrs d !! "id") →
  (∀ n, dict_get (attrs d) "active_scenario" = VInt n →
        fst (alarm_state s)
        = Return (Some (if decide (n = 0) then ARMED_AWAY
                        else if decide (n = 2) then ARMED_HOME
                        else DISARMED)))
  ∧ (∀ b, dict_get (attrs d) "active_scenario" = VBool b →
          fst (alarm_state s) = Return (Some DISARMED)).
Proof.
  intros Hfind Hid.
  destruct (alarm_state_found s d Hfind (device_with_id_truthy d Hid))
    as (t & -> & _).
  split.
  - intros n ->. cbn [fst is_not_None]. rewrite state_map_lookup.
    change "0" with (pretty 0). change "1" with (pretty 1).
    change "2" with (pretty 2).
    repeat case_decide;
      repeat match goal with
      | H : py_str (VInt _) = pretty _ |- _ => apply py_str_int in H
      | H : py_str (VInt _) ≠ pretty _ |- _ => rewrite py_str_int in H
      end; try reflexivity; lia.
  - intros b ->. cbn [fst is_not_None]. rewrite state_map_lookup.
    destruct b; reflexivity.
Qed.

Lemma alarm_state_of_integer_witness :
  fst (alarm_state (Scripted.reading (VInt (-2)))) = Return (Some DISARMED)
  ∧ fst (alarm_state (Scripted.reading (VInt 20))) = Return (Some DISARMED)
  ∧ fst (alarm_state (Scripted.reading (VBool false))) = Return (Some DISARMED).
Proof.
  assert (Hid : ∀ a, is_Some (attrs (Scripted.dev (VInt 7) a []) !! "id")).
  { intros a. exists (VInt 7). reflexivity. }
  assert (Hfind : ∀ a,
             fst (_find_device_in_coordinator (Scripted.reading a))
             = Return (Some (Scripted.dev (VInt 7) a []))).
  { intros a. vm_compute. reflexivity. }
  pose proof (λ a, alarm_state_of_integer (Scripted.reading a)
                     (Scripted.dev (VInt 7) a []) (Hfind a) (Hid a)) as Hint.
  split; [|split].
  - destruct (Hint (VInt (-2))) as [Hn _]. apply (Hn (-2)). reflexivity.
  - destruct (Hint (VInt 20)) as [Hn _]. apply (Hn 20). reflexivity.
  - destruct (Hint (VBool false)) as [_ Hb]. apply (Hb false). reflexivity.
Defined.
